(* Verification development for the grocery flyer app (CanvasComposer,
   utils/format, utils/drive, utils/xlsx, App, FitStage, FeaturedTable).

   Numbers of the TypeScript code are modelled as rationals (Q); the
   expressions are the code's expressions, in the code's order.  Strings
   are Rocq strings whose characters stand for the UTF-16 code units that
   JavaScript's [length] counts (all inputs used below are ASCII). *)

From Stdlib Require Import QArith Qabs Qminmax Qround String Ascii List Lia ZArith Bool Relations Lqa Permutation.
Import ListNotations.
Open Scope string_scope.
Open Scope Q_scope.

(* ------------------------------------------------------------------ *)
(** * Data model (utils/xlsx.ts) *)

Record Row := mkRow { name : string; size : string; price : string }.

Record FeaturedItem := mkFeatured {
  f_name : string; f_size : string; f_price : string; f_imageUrl : string }.

Record WorkbookData := mkData {
  d_featured : list FeaturedItem;
  d_grocery : list Row;
  d_frozen : list Row;
  d_meat : list Row;
  d_produce : list Row }.

(* ------------------------------------------------------------------ *)
(** * utils/format.ts : clamp *)

(** [clamp = (n, min, max) => Math.max(min, Math.min(max, n))] *)
Definition clamp (n min max : Q) : Q := Qmax min (Qmin max n).

(* ------------------------------------------------------------------ *)
(** * CanvasComposer.tsx : constants, sectionMetrics, GroupsLayer *)

Definition CANVAS_W : Q := 2550.
Definition CANVAS_H : Q := 3300.
Definition MARGIN : Q := 120.

Record Widths := mkWidths { usable : Q; nameW : Q; sizeW : Q; priceW : Q }.

Record SectionMetrics := mkMetrics {
  headerH : Q; rowH : Q; fs : Q; height : Q; widths : Widths }.

(** [Math.max(rowsLen, 1)] for an array length. *)
Definition max_rows_1 (rowsLen : nat) : Q := inject_Z (Z.max (Z.of_nat rowsLen) 1).

Definition densityScale (rowsLen : nat) : Q :=
  clamp (30 / max_rows_1 rowsLen) (85 # 100) 1.

(** [sectionMetrics(rowsLen, fontScale = 1)] *)
Definition sectionMetrics (rowsLen : nat) (fontScale : Q) : SectionMetrics :=
  let usable_ := 2550 - 2 * MARGIN in
  let headerH_ := 120 in
  let rowHBase := 72 in
  let maxRows := 30 in
  let densityScale_ := clamp (maxRows / max_rows_1 rowsLen) (85 # 100) 1 in
  let scale := densityScale_ * fontScale in
  let rowH_ := rowHBase * scale in
  let fs_ := 36 * scale in
  let height_ := headerH_ + 20 + inject_Z (Z.of_nat rowsLen) * rowH_ in
  mkMetrics headerH_ rowH_ fs_ height_
    (mkWidths usable_ (usable_ * (60 # 100)) (usable_ * (15 # 100))
       (usable_ * (25 # 100))).

(** The vertical starts of the three sections drawn by [GroupsLayer]. *)
Record GroupsOffsets := mkOffsets { yFrozen : Q; yMeat : Q; yProd : Q }.

Definition groups_gap (rowH_ : Q) : Q := rowH_ * (5 # 10).

(** [GroupsLayer]: [top = 580], one metrics record per section, and the
    half-row gap taken from the following section's row height. *)
Definition GroupsLayer_offsets (frozen meat produce : list Row) (scale : Q)
  : GroupsOffsets :=
  let top := 580 in
  let frozenM := sectionMetrics (length frozen) scale in
  let meatM := sectionMetrics (length meat) scale in
  let produceM := sectionMetrics (length produce) scale in
  let yFrozen_ := top in
  let yMeat_ := yFrozen_ + height frozenM + groups_gap (rowH meatM) in
  let yProd_ := yMeat_ + height meatM + groups_gap (rowH produceM) in
  mkOffsets yFrozen_ yMeat_ yProd_.

(** [theme.saleItem?.fontScaleGroups ?? 1] *)
Definition groups_font_scale (fontScaleGroups : option Q) : Q :=
  match fontScaleGroups with Some s => s | None => 1 end.

(* ------------------------------------------------------------------ *)
(** * CanvasComposer.tsx : PriceBadge sizing *)

Record BadgeGeometry := mkBadge {
  b_scale : Q; b_W : Q; b_H : Q; b_depth : Q; b_pillR : Q; b_badgeR : Q;
  b_circleR : Q; b_font : Q }.

Definition badge_scale (len : nat) : Q :=
  if (6 <=? len)%nat then 128 # 100
  else if (5 <=? len)%nat then 116 # 100
  else if (4 <=? len)%nat then 106 # 100
  else 96 # 100.

(** The geometry computed by [PriceBadge] from [price.length]. *)
Definition PriceBadge_geometry (price_ : string) : BadgeGeometry :=
  let len := String.length price_ in
  let scale := badge_scale len in
  let baseW := 240 in
  let baseH := 130 in
  let W := baseW * scale in
  let H := baseH * scale in
  let depth := 18 * scale in
  let pillR := 70 * scale in
  let badgeR := 24 * scale in
  let circleR := Qmax W H / 2 in
  let font := (if (5 <=? len)%nat then 60 else 56) * scale in
  mkBadge scale W H depth pillR badgeR circleR font.

(* ------------------------------------------------------------------ *)
(** * JavaScript numbers and their decimal rendering *)

(** A JavaScript number: a finite binary64 value (its exact rational
    value; the sign of zero is not kept, [toFixed] prints both zeros
    alike), an infinity, or NaN. *)
Inductive JSNum := Finite (x : Q) | PosInf | NegInf | NaN.

Definition Qltb (x y : Q) : bool := negb (Qle_bool y x).

Definition pow2Q (e : Z) : Q :=
  if (0 <=? e)%Z then inject_Z (2 ^ e) else 1 / inject_Z (2 ^ (- e)).

Definition pow10Q (e : Z) : Q :=
  if (0 <=? e)%Z then inject_Z (10 ^ e) else 1 / inject_Z (10 ^ (- e)).

(** [floor (log2 (p / q))] for [p > 0]. *)
Definition floor_log2 (p : Z) (q : positive) : Z :=
  let e0 := (Z.log2 p - Z.log2 (Zpos q))%Z in
  if Qle_bool (pow2Q e0) (p # q) then e0 else (e0 - 1)%Z.

Definition Qfloor_ (r : Q) : Z := (Qnum r / Zpos (Qden r))%Z.

(** Round to the nearest integer, ties to even. *)
Definition round_half_even (r : Q) : Z :=
  let fl := Qfloor_ r in
  let frac := r - inject_Z fl in
  match Qcompare frac (1 # 2) with
  | Lt => fl
  | Gt => (fl + 1)%Z
  | Eq => if Z.even fl then fl else (fl + 1)%Z
  end.

(** IEEE 754 binary64 rounding (to nearest, ties to even) of a rational,
    with gradual underflow and overflow to the infinities. *)
Definition round_binary64 (x : Q) : JSNum :=
  if Qeq_bool x 0 then Finite 0 else
  let a := Qabs x in
  let e := floor_log2 (Qnum a) (Qden a) in
  let sh := Z.max (e - 52) (-1074) in
  let m := round_half_even (a / pow2Q sh) in
  let v := inject_Z m * pow2Q sh in
  if Qle_bool (pow2Q 1024) v then (if Qltb x 0 then NegInf else PosInf)
  else Finite (if Qltb x 0 then - v else v).

Definition is_digit (c : ascii) : bool :=
  let n := nat_of_ascii c in (48 <=? n)%nat && (n <=? 57)%nat.

Definition digit_val (c : ascii) : Z := Z.of_nat (nat_of_ascii c - 48).

Definition digit_char (d : Z) : ascii := ascii_of_nat (48 + Z.to_nat d).

Fixpoint digits_rev (fuel : nat) (n : Z) : list ascii :=
  match fuel with
  | O => []
  | S f => if (n <? 10)%Z then [digit_char n]
           else digit_char (n mod 10) :: digits_rev f (n / 10)
  end.

(** Decimal digits of a non-negative integer ("0" for zero). *)
Definition digits_of_Z (n : Z) : list ascii :=
  rev (digits_rev (S (Z.to_nat (Z.log2 n))) n).

Definition string_of_Z (n : Z) : string := string_of_list_ascii (digits_of_Z n).

Fixpoint digits_value (acc : Z) (ds : list ascii) : Z :=
  match ds with [] => acc | d :: t => digits_value (acc * 10 + digit_val d) t end.

(** [Number::toString] of a finite value [x >= 10^21] (always an integer):
    the shortest digit string [s] of [k] digits with [s * 10^(n-k)]
    rounding back to [x], nearest to [x] (ties to even [s]), printed in
    exponent form [d.ddde+(n-1)]. *)
Definition shortest_round_trip (x : Q) : option (Z * Z * Z) :=
  let D := Z.of_nat (length (digits_of_Z (Qfloor_ x))) in
  let fix go (fuel : nat) (k : Z) :=
    match fuel with
    | O => None
    | S f =>
      let unit := pow10Q (D - k) in
      let lo := Qfloor_ (x / unit) in
      let hi := (lo + 1)%Z in
      let ok s := match round_binary64 (inject_Z s * unit) with
                  | Finite y => Qeq_bool y x | _ => false end in
      let dist s := Qabs (inject_Z s * unit - x) in
      let pick :=
        match ok lo, ok hi with
        | true, true =>
            match Qcompare (dist lo) (dist hi) with
            | Lt => Some lo | Gt => Some hi
            | Eq => if Z.even lo then Some lo else Some hi
            end
        | true, false => Some lo
        | false, true => Some hi
        | false, false => None
        end in
      match pick with
      | Some s => if (s =? 10 ^ k)%Z then Some (10 ^ (k - 1), k, D + 1)%Z
                  else Some (s, k, D)
      | None => go f (k + 1)%Z
      end
    end in
  go 17%nat 1%Z.

Definition number_toString_big (x : Q) : string :=
  match shortest_round_trip x with
  | Some (s, k, n) =>
      match digits_of_Z s with
      | [] => ""
      | d :: rest =>
          string_of_list_ascii
            (d :: (if (k =? 1)%Z then [] else "."%char :: rest))
          ++ "e+" ++ string_of_Z (n - 1)
      end
  | None => ""
  end.

(** [m] padded on the left with zeros to at least [f + 1] digits, then
    split [f] digits from the right by a decimal point. *)
Definition fixed_point_digits (m : list ascii) : list ascii :=
  let m' := if (length m <=? 2)%nat then app (repeat "0"%char (3 - length m)) m else m in
  let k := length m' in
  app (firstn (k - 2) m') ("."%char :: skipn (k - 2) m').

(** [Number.prototype.toFixed(2)] (ECMA-262, 21.1.3.3). *)
Definition toFixed2 (v : JSNum) : string :=
  match v with
  | NaN => "NaN"
  | PosInf => "Infinity"
  | NegInf => "-Infinity"
  | Finite x0 =>
      let s := if Qltb x0 0 then "-" else "" in
      let x := if Qltb x0 0 then - x0 else x0 in
      if Qle_bool (pow10Q 21) x then s ++ number_toString_big x
      else
        (* the integer n nearest to x * 100, the larger one on a tie *)
        let n := Qfloor_ (x * 100 + (1 # 2)) in
        s ++ string_of_list_ascii (fixed_point_digits (digits_of_Z n))
  end.

(** [String.prototype.trim] on the ASCII white space. *)
Definition is_js_space (c : ascii) : bool :=
  let n := nat_of_ascii c in
  (n =? 32)%nat || (n =? 9)%nat || (n =? 10)%nat || (n =? 11)%nat
  || (n =? 12)%nat || (n =? 13)%nat.

Fixpoint drop_space (l : list ascii) : list ascii :=
  match l with c :: t => if is_js_space c then drop_space t else l | [] => [] end.

Definition js_trim (s : string) : string :=
  string_of_list_ascii (rev (drop_space (rev (drop_space (list_ascii_of_string s))))).

Fixpoint take_digits (l : list ascii) : list ascii * list ascii :=
  match l with
  | c :: t => if is_digit c then let (d, r) := take_digits t in (c :: d, r) else ([], l)
  | [] => ([], [])
  end.

(** [parseFloat] on a string: white space, an optional sign, then the
    longest prefix of the form [digits [. digits]] or [. digits]; NaN when
    no digit is found.  ("Infinity" and exponents are absent from the
    strings it receives below, which hold only digits, '.' and '-'.) *)
Definition parseFloat (s : string) : JSNum :=
  let l := drop_space (list_ascii_of_string s) in
  let '(neg, l1) := match l with
                    | c :: t => if (nat_of_ascii c =? 45)%nat then (true, t)
                                else if (nat_of_ascii c =? 43)%nat then (false, t)
                                else (false, l)
                    | [] => (false, [])
                    end in
  let '(ip, l2) := take_digits l1 in
  let fp := match l2 with
            | c :: t => if (nat_of_ascii c =? 46)%nat then fst (take_digits t) else []
            | [] => []
            end in
  match ip, fp with
  | [], [] => NaN
  | _, _ =>
      let d := inject_Z (digits_value 0 (app ip fp)) / pow10Q (Z.of_nat (length fp)) in
      round_binary64 (if neg then - d else d)
  end.

(** The characters kept by [.replace(/[^0-9.\-]/g, '')]. *)
Definition keep_numeric (c : ascii) : bool :=
  is_digit c || (nat_of_ascii c =? 46)%nat || (nat_of_ascii c =? 45)%nat.

Definition strip_non_numeric (s : string) : string :=
  string_of_list_ascii (filter keep_numeric (list_ascii_of_string s)).

(** The number [normalizePrice] parses from its argument; [None] is
    [null] or [undefined], [Some s] is [String(p)]. *)
Definition normalizePrice_value (p : option string) : JSNum :=
  let s := js_trim (match p with Some s => s | None => "" end) in
  parseFloat (strip_non_numeric s).

(** [normalizePrice(p)] (utils/format.ts). *)
Definition normalizePrice (p : option string) : string :=
  match normalizePrice_value p with
  | NaN => "$0.00"
  | n => "$" ++ toFixed2 n
  end.

(** The pattern [/^\$\d+\.\d{2}$/] of the claim, and the same pattern
    with an optional minus sign after the dollar, [/^\$-?\d+\.\d{2}$/]. *)
Definition digits_dot_two (r : list ascii) : bool :=
  match rev r with
  | d2 :: d1 :: c :: ra =>
      (nat_of_ascii c =? 46)%nat && is_digit d1 && is_digit d2
      && negb (match ra with [] => true | _ => false end) && forallb is_digit ra
  | _ => false
  end.

Definition price_pattern (s : string) : bool :=
  match list_ascii_of_string s with
  | c :: r => (nat_of_ascii c =? 36)%nat && digits_dot_two r
  | [] => false
  end.

Definition price_pattern_signed (s : string) : bool :=
  match list_ascii_of_string s with
  | c :: r =>
      (nat_of_ascii c =? 36)%nat
      && match r with
         | m :: t => if (nat_of_ascii m =? 45)%nat then digits_dot_two t
                     else digits_dot_two r
         | [] => false
         end
  | [] => false
  end.

(** Whether [toFixed(2)] prints the value in fixed-point form (NaN is
    never printed: [normalizePrice] answers "$0.00" for it). *)
Definition in_fixed_range (v : JSNum) : bool :=
  match v with
  | NaN => true
  | Finite x => Qltb (Qabs x) (pow10Q 21)
  | PosInf | NegInf => false
  end.

Definition is_negative (v : JSNum) : bool :=
  match v with Finite x => Qltb x 0 | NegInf => true | _ => false end.

Open Scope nat_scope.

(* ------------------------------------------------------------------ *)
(** * The URL constructor (WHATWG URL, the part [extractDriveId] uses) *)

(** [new URL(s)] without a base: the scheme, the path name and the query.
    It throws ([None]) when [s] has no scheme ([[A-Za-z][A-Za-z0-9+.-]*:])
    and, for the special schemes, when the host is empty.  Host validation,
    ports and percent-encoding are not modelled. *)
Record URLParts := mkURL { protocol : list ascii; pathname : list ascii; query : list ascii }.

Definition code (c : ascii) : nat := nat_of_ascii c.

Definition is_alpha (c : ascii) : bool :=
  ((65 <=? code c) && (code c <=? 90)) || ((97 <=? code c) && (code c <=? 122)).

Definition is_scheme_char (c : ascii) : bool :=
  is_alpha c || is_digit c || (code c =? 43) || (code c =? 45) || (code c =? 46).

Definition lower (c : ascii) : ascii :=
  if (65 <=? code c) && (code c <=? 90) then ascii_of_nat (code c + 32) else c.

Fixpoint scheme_rest (l : list ascii) : option (list ascii * list ascii) :=
  match l with
  | [] => None
  | c :: t =>
      if (code c =? 58)%nat then Some ([], t)
      else if is_scheme_char c then
        match scheme_rest t with Some (sc, r) => Some (lower c :: sc, r) | None => None end
      else None
  end.

Definition split_scheme (l : list ascii) : option (list ascii * list ascii) :=
  match l with
  | c :: _ => if is_alpha c then scheme_rest l else None
  | [] => None
  end.

Definition is_c0_or_space (c : ascii) : bool := (code c <=? 32)%nat.

Fixpoint drop_while (f : ascii -> bool) (l : list ascii) : list ascii :=
  match l with c :: t => if f c then drop_while f t else l | [] => [] end.

Fixpoint take_while (f : ascii -> bool) (l : list ascii) : list ascii :=
  match l with c :: t => if f c then c :: take_while f t else [] | [] => [] end.

Definition is_tab_or_newline (c : ascii) : bool :=
  (code c =? 9) || (code c =? 10) || (code c =? 13).

Definition special_scheme (sc : list ascii) : bool :=
  let s := string_of_list_ascii sc in
  String.eqb s "http" || String.eqb s "https" || String.eqb s "ws"
  || String.eqb s "wss" || String.eqb s "ftp" || String.eqb s "file".

Definition not_in (cs : list nat) (c : ascii) : bool :=
  negb (existsb (Nat.eqb (code c)) cs).

(** The query: the text after the first '?' and before '#'. *)
Definition query_of (l : list ascii) : list ascii :=
  match drop_while (not_in [63; 35]) l with
  | c :: t => if (code c =? 63)%nat then take_while (not_in [35]) t else []
  | [] => []
  end.

Definition url_parse (s : string) : option URLParts :=
  let l0 := list_ascii_of_string s in
  let l1 := rev (drop_while is_c0_or_space (rev (drop_while is_c0_or_space l0))) in
  let l := filter (fun c => negb (is_tab_or_newline c)) l1 in
  match split_scheme l with
  | None => None
  | Some (sc, rest) =>
      if special_scheme sc then
        let r := drop_while (fun c => (code c =? 47) || (code c =? 92)) rest in
        let host := take_while (not_in [47; 92; 63; 35]) r in
        let r' := drop_while (not_in [47; 92; 63; 35]) r in
        let path := map (fun c => if (code c =? 92)%nat then "/"%char else c)
                        (take_while (not_in [63; 35]) r') in
        if (match host with [] => true | _ => false end)
           && negb (String.eqb (string_of_list_ascii sc) "file")
        then None
        else Some (mkURL sc (match path with [] => ["/"%char] | _ => path end) (query_of r'))
      else
        match rest with
        | c1 :: c2 :: r =>
            if (code c1 =? 47) && (code c2 =? 47) then
              let r' := drop_while (not_in [47; 63; 35]) r in
              Some (mkURL sc (take_while (not_in [63; 35]) r') (query_of r'))
            else Some (mkURL sc (take_while (not_in [63; 35]) rest) (query_of rest))
        | _ => Some (mkURL sc (take_while (not_in [63; 35]) rest) (query_of rest))
        end
  end.

Fixpoint split_on (sep : nat) (l : list ascii) : list (list ascii) :=
  match l with
  | [] => [[]]
  | c :: t =>
      if (code c =? sep)%nat then [] :: split_on sep t
      else match split_on sep t with
           | w :: ws => (c :: w) :: ws
           | [] => [[c]]
           end
  end.

(** [u.searchParams.get(name)]: the value of the first pair with that
    name ('+' read as a space; percent-decoding not modelled). *)
Definition search_params_get (q : list ascii) (nm : string) : option (list ascii) :=
  let plus c := if (code c =? 43)%nat then " "%char else c in
  let pairs := filter (fun w => match w with [] => false | _ => true end) (split_on 38 q) in
  let kv w := (map plus (take_while (not_in [61]) w),
               map plus (match drop_while (not_in [61]) w with _ :: v => v | [] => [] end)) in
  match find (fun w => String.eqb (string_of_list_ascii (fst (kv w))) nm) pairs with
  | Some w => Some (snd (kv w))
  | None => None
  end.

(* ------------------------------------------------------------------ *)
(** * utils/drive.ts : extractDriveId, driveImageCandidates *)

Fixpoint starts_with (p l : list ascii) : bool :=
  match p, l with
  | [], _ => true
  | c :: p', d :: l' => Ascii.eqb c d && starts_with p' l'
  | _ :: _, [] => false
  end.

(** [pathname.match(/\/file\/d\/([^/]+)/)?.[1]]: the leftmost match. *)
Fixpoint match_file_d (l : list ascii) : option (list ascii) :=
  match l with
  | [] => None
  | _ :: t =>
      if starts_with (list_ascii_of_string "/file/d/") l then
        match take_while (not_in [47]) (skipn 8 l) with
        | [] => match_file_d t
        | cap => Some cap
        end
      else match_file_d t
  end.

(** [/^[A-Za-z0-9_-]{20,}$/.test(url)] *)
Definition bare_id_like (s : string) : bool :=
  let l := list_ascii_of_string s in
  (20 <=? length l)%nat
  && forallb (fun c => is_alpha c || is_digit c || (code c =? 95) || (code c =? 45)) l.

(** [extractDriveId(url)]: [new URL(url)] is evaluated first; a throw is
    caught and answered with [null]. *)
Definition extractDriveId (url : string) : option string :=
  if String.eqb url "" then None else
  match url_parse url with
  | None => None
  | Some u =>
      match match_file_d (pathname u) with
      | Some m => Some (string_of_list_ascii m)
      | None =>
          match search_params_get (query u) "id" with
          | Some ((_ :: _) as id) => Some (string_of_list_ascii id)
          | _ => if bare_id_like url then Some url else None
          end
      end
  end.

Definition driveImageCandidates (raw : string) : list string :=
  match extractDriveId raw with
  | None => [raw]
  | Some id =>
      [ "https://drive.google.com/uc?export=download&id=" ++ id;
        "https://drive.google.com/uc?export=view&id=" ++ id;
        "https://drive.google.com/thumbnail?id=" ++ id ++ "&sz=w2000";
        "https://lh3.googleusercontent.com/d/" ++ id ++ "=s2048" ]
  end.

(* ------------------------------------------------------------------ *)
(** * CanvasComposer.tsx : useResolvedUrl and NetworkImage *)

(** [useResolvedUrl(raw)] once its effect has settled; [resolveToken] is
    the result of [resolveTokenToObjectUrl] (utils/media.ts). *)
Definition useResolvedUrl (resolveToken : string -> option string) (raw : string) : string :=
  if String.eqb raw "" then ""
  else if String.prefix "media://" raw || String.prefix "asset://" raw then
    match resolveToken raw with Some obj => obj | None => "" end
  else raw.

(** The [candidates] memo of [NetworkImage]. *)
Definition NetworkImage_candidates (resolved : string) : list string :=
  if negb (String.eqb resolved "") && String.prefix "http" resolved then [resolved]
  else driveImageCandidates resolved.

Inductive LoadStatus := Loading | Loaded | Failed.

(** [useImage(url)] once settled: [load url] says whether the browser
    decodes the image at [url]; [useImage('')] stays loading. *)
Definition useImage_status (load : string -> bool) (url : string) : LoadStatus :=
  if String.eqb url "" then Loading else if load url then Loaded else Failed.

(** The index [i] of [NetworkImage]: the effect moves to [i + 1] while the
    current candidate failed and [i < candidates.length - 1]; the result is
    the image drawn, or [None] when the component renders [null]. *)
Fixpoint NetworkImage_run (fuel : nat) (load : string -> bool) (cands : list string) (i : nat)
  : option string :=
  let url := nth i cands "" in
  match useImage_status load url with
  | Loaded => Some url
  | Loading => None
  | Failed =>
      match fuel with
      | O => None
      | S f => if (i <? length cands - 1)%nat then NetworkImage_run f load cands (S i) else None
      end
  end.

Definition NetworkImage_image (load : string -> bool) (cands : list string) : option string :=
  NetworkImage_run (length cands) load cands 0.

Open Scope Q_scope.

Open Scope nat_scope.

(* ------------------------------------------------------------------ *)
(** * utils/xlsx.ts : parseWorkbookDetailed and parseWorkbook *)

(** A thrown exception or a value. *)
Inductive Result (A : Type) := Ok (a : A) | Throw (e : string).
Arguments Ok {A} a.
Arguments Throw {A} e.

Definition bind {A B} (m : Result A) (k : A -> Result B) : Result B :=
  match m with Ok a => k a | Throw e => Throw e end.

Notation "x <- m ;; k" := (bind m (fun x => k)) (at level 61, m at next level, right associativity).

(** A cell of [sheet_to_json]'s output: [null]/[undefined], or a value
    given by its [String(v)]. *)
Inductive Cell := CNull | CVal (s : string).

(** A row object of [sheet_to_json]: its own properties in order. *)
Definition JsonRow := list (string * Cell).

Record Workbook := mkWorkbook {
  SheetNames : list string;
  Sheets : list (string * list JsonRow) }.

Inductive Level := LError | LWarning.

Record WorkbookIssue := mkIssue {
  level : Level; icode : string; message : string;
  sheet : option string; row : option nat; column : option string }.

Record ParseResult := mkParseResult { data : WorkbookData; issues : list WorkbookIssue }.

Definition REQUIRED_SHEETS : list string :=
  ["Featured Items"; "Grocery"; "Frozen Foods"; "Meat"; "Produce"].

Definition COLS_featured : list string := ["Product Name"; "Size"; "Price"; "Image File"].
Definition COLS_rows : list string := ["Product Name"; "Size"; "Price"].

Fixpoint join (sep : string) (l : list string) : string :=
  match l with [] => "" | [x] => x | x :: t => x ++ sep ++ join sep t end.

Definition lower_list (l : list ascii) : list ascii := map lower l.

Fixpoint contains (p l : list ascii) : bool :=
  starts_with p l || match l with [] => false | _ :: t => contains p t end.

Definition is_word_char (c : ascii) : bool := is_alpha c || is_digit c || (code c =? 95).

Definition is_line_terminator (c : ascii) : bool := (code c =? 10) || (code c =? 13).

(** [IGNORED_SHEET_PATTERNS.some(re => re.test(name))] for
    [/^do not delete\b.*autocrat/i], [/^autocrat/i], [/^autocrat job/i]. *)
Definition isIgnoredSheet (nm : string) : bool :=
  let l := lower_list (list_ascii_of_string nm) in
  let p1 := list_ascii_of_string "do not delete" in
  let r1 := skipn (length p1) l in
  (starts_with p1 l
   && match r1 with [] => true | c :: _ => negb (is_word_char c) end
   && contains (list_ascii_of_string "autocrat") (take_while (fun c => negb (is_line_terminator c)) r1))
  || starts_with (list_ascii_of_string "autocrat") l
  || starts_with (list_ascii_of_string "autocrat job") l.

Fixpoint assoc {A} (k : string) (l : list (string * A)) : option A :=
  match l with [] => None | (k', v) :: t => if String.eqb k k' then Some v else assoc k t end.

(** [sheetToJson(wb, name)] *)
Definition sheetToJson (wb : Workbook) (nm : string) : option (list JsonRow) := assoc nm (Sheets wb).

(** [haveColumns(rows, needed)] *)
Definition haveColumns (rows : list JsonRow) (needed : list string) : bool :=
  match rows with
  | [] => true
  | r0 :: _ => forallb (fun col => match assoc col r0 with Some _ => true | None => false end) needed
  end.

(** [toStr(v)] *)
Definition toStr (v : option Cell) : string :=
  match v with None | Some CNull => "" | Some (CVal s) => js_trim s end.

(** [cellStr(r, key)] *)
Definition cellStr (r : JsonRow) (key : string) : string := toStr (assoc key r).

Definition nat_str (n : nat) : string := string_of_Z (Z.of_nat n).

Definition issue (lv : Level) (c m : string) (sh : option string) (rw : option nat)
  (col : option string) : WorkbookIssue := mkIssue lv c m sh rw col.

(** The [raw.forEach] callback of [parseFeaturedRows], over the rows
    from index [i], with the [out], [dropped] and [issues] it updates. *)
Fixpoint featured_forEach (rs : list JsonRow) (i : nat) (out : list FeaturedItem) (dropped : nat)
  (iss : list WorkbookIssue) : list FeaturedItem * nat * list WorkbookIssue :=
  match rs with
  | [] => (out, dropped, iss)
  | r :: rs' =>
    let rowNum := i + 2 in
    let nm := cellStr r "Product Name" in
    let sz := cellStr r "Size" in
    let pr := toStr (assoc "Price" r) in
    let img := cellStr r "Image File" in
    if String.eqb nm "" then
      featured_forEach rs' (S i) out (S dropped)
         (app iss [issue LWarning "featured_missing_name"
                    ("Featured row " ++ nat_str rowNum ++ " skipped: “Product Name” is required.")
                    (Some "Featured Items") (Some rowNum) (Some "Product Name")])
    else
      let iss' := if String.eqb pr "" then
                    app iss [issue LWarning "featured_missing_price"
                             ("Featured row " ++ nat_str rowNum ++ ": “Price” is empty.")
                             (Some "Featured Items") (Some rowNum) (Some "Price")]
                  else iss in
      featured_forEach rs' (S i) (app out [mkFeatured nm sz pr img]) dropped iss'
  end.

(** [parseFeaturedRows(raw, issues)]: the pushes to [issues] are threaded
    through as state. *)
Definition parseFeaturedRows (raw : option (list JsonRow)) (issues0 : list WorkbookIssue)
  : list FeaturedItem * list WorkbookIssue :=
  match raw with
  | None => ([], issues0)
  | Some raw =>
    if negb (haveColumns raw COLS_featured) then
      ([], app issues0 [issue LError "missing_columns_featured"
                         ("“Featured Items” is missing one or more required columns: "
                          ++ join ", " COLS_featured) (Some "Featured Items") None None])
    else
      let '(out, dropped, iss) := featured_forEach raw 0 [] 0 issues0 in
      let iss' :=
        if (length out =? 0) && negb (length raw =? 0) then
          app iss [issue LError "featured_no_valid_rows"
                    "“Featured Items” could not be parsed into any valid items."
                    (Some "Featured Items") None None]
        else if 0 <? dropped then
          app iss [issue LWarning "featured_dropped_rows"
                    "Some Featured rows were skipped due to missing required fields."
                    (Some "Featured Items") None None]
        else iss in
      (firstn 9 out, iss')
  end.

(** [parseSimpleRows(raw, sheetName, issues)] *)
Definition parseSimpleRows (raw : option (list JsonRow)) (sheetName : string)
  (issues0 : list WorkbookIssue) : list Row * list WorkbookIssue :=
  match raw with
  | None => ([], issues0)
  | Some raw =>
    if negb (haveColumns raw COLS_rows) then
      ([], app issues0 [issue LError "missing_columns_rows"
                         ("“" ++ sheetName ++ "” is missing one or more required columns: "
                          ++ join ", " COLS_rows) (Some sheetName) None None])
    else
      let fix go (rs : list JsonRow) (out : list Row) (dropped : nat) (iss : list WorkbookIssue) :=
        match rs with
        | [] => (out, iss)
        | r :: rs' =>
          let nm := cellStr r "Product Name" in
          let sz := cellStr r "Size" in
          let pr := toStr (assoc "Price" r) in
          if String.eqb nm "" then
            let iss' := if S dropped =? 1 then
                          app iss [issue LWarning "rows_missing_name"
                                   ("Some rows in “" ++ sheetName
                                    ++ "” were skipped because “Product Name” is required.")
                                   (Some sheetName) None None]
                        else iss in
            go rs' out (S dropped) iss'
          else go rs' (app out [mkRow nm sz pr]) dropped iss
        end in
      let '(out, iss) := go raw [] 0 issues0 in
      let iss' :=
        if (length out =? 0) && negb (length raw =? 0) then
          app iss [issue LError "rows_no_valid_rows"
                    ("“" ++ sheetName ++ "” has no valid rows after parsing.") (Some sheetName) None None]
        else iss in
      (out, iss')
  end.

Definition empty_data : WorkbookData := mkData [] [] [] [] [].

Definition read_failed_result : ParseResult :=
  mkParseResult empty_data
    [issue LError "read_failed"
       "Could not read your spreadsheet. Ensure it is a valid .xlsx file (Excel workbook)."
       None None None].

Section Parse.

(** The input buffer and [XLSX.read(buf, {type: 'array'})], which may
    throw. *)
Variable buffer : Type.
Variable XLSX_read : buffer -> Result Workbook.

(** [parseWorkbookDetailed(buf)]: the [try]/[catch] around [XLSX.read]
    turns a throw into the [read_failed] result. *)
Definition parseWorkbookDetailed (buf : buffer) : Result ParseResult :=
  match XLSX_read buf with
  | Throw _ => Ok read_failed_result
  | Ok wb =>
    let present n := existsb (String.eqb n) (SheetNames wb) in
    let missing := filter (fun n => negb (present n)) REQUIRED_SHEETS in
    let issues1 :=
      match missing with
      | [] => []
      | _ => [issue LError "missing_sheets"
                ("Missing required sheet" ++ (if 1 <? length missing then "s" else "")
                 ++ ": " ++ join ", " missing ++ ".") None None None]
      end in
    let extras := filter (fun n => negb (isIgnoredSheet n))
                    (filter (fun n => negb (existsb (String.eqb n) REQUIRED_SHEETS)) (SheetNames wb)) in
    let issues2 :=
      match extras with
      | [] => issues1
      | _ => app issues1 [issue LWarning "unexpected_sheets"
                ("Found sheet" ++ (if 1 <? length extras then "s" else "")
                 ++ " we don’t use: " ++ join ", " extras ++ ".") None None None]
      end in
    let rawFeatured := sheetToJson wb "Featured Items" in
    let rawGrocery := sheetToJson wb "Grocery" in
    let rawFrozen := sheetToJson wb "Frozen Foods" in
    let rawMeat := sheetToJson wb "Meat" in
    let rawProduce := sheetToJson wb "Produce" in
    let '(featured, issues3) := parseFeaturedRows rawFeatured issues2 in
    let '(grocery, issues4) := parseSimpleRows rawGrocery "Grocery" issues3 in
    let '(frozen, issues5) := parseSimpleRows rawFrozen "Frozen Foods" issues4 in
    let '(meat, issues6) := parseSimpleRows rawMeat "Meat" issues5 in
    let '(produce, issues7) := parseSimpleRows rawProduce "Produce" issues6 in
    Ok (mkParseResult (mkData featured grocery frozen meat produce) issues7)
  end.

Definition is_error (i : WorkbookIssue) : bool :=
  match level i with LError => true | LWarning => false end.

(** [parseWorkbook(buf)]: throws the joined error messages when any issue
    is an error. *)
Definition parseWorkbook (buf : buffer) : Result WorkbookData :=
  r <- parseWorkbookDetailed buf ;;
  if existsb is_error (issues r) then
    let msgs := join " | " (map message (filter is_error (issues r))) in
    Throw (if String.eqb msgs "" then "Workbook parse failed." else msgs)
  else Ok (data r).

(* ------------------------------------------------------------------ *)
(** * App.tsx : onUpload *)

Inductive Tab := TFeatured | TGrocery | TGroups.

(** The part of [App]'s state that [onUpload] touches or must keep. *)
Record AppState := mkApp {
  featured : list FeaturedItem; grocery : list Row; frozen : list Row;
  meat : list Row; produce : list Row;
  dateFrom : string; dateTo : string; tab : Tab;
  uploadError : option string }.

Definition upload_error_message : string :=
  "Could not read your spreadsheet. Ensure it is a .xlsx with all required sheets.".

Definition setUploadError (st : AppState) (e : option string) : AppState :=
  mkApp (featured st) (grocery st) (frozen st) (meat st) (produce st)
        (dateFrom st) (dateTo st) (tab st) e.

(** [onUpload(file)]: [file.arrayBuffer()] (which may reject) is given as
    its outcome; the five setters run only after [parseWorkbook] returned. *)
Definition onUpload (st : AppState) (arrayBuffer : Result buffer) : AppState :=
  let st1 := setUploadError st None in
  match (ab <- arrayBuffer ;; parseWorkbook ab) with
  | Ok parsed =>
      mkApp (d_featured parsed) (d_grocery parsed) (d_frozen parsed) (d_meat parsed)
            (d_produce parsed) (dateFrom st1) (dateTo st1) (tab st1) (uploadError st1)
  | Throw _ => setUploadError st1 (Some upload_error_message)
  end.

End Parse.

Open Scope Q_scope.

Open Scope nat_scope.

(* ------------------------------------------------------------------ *)
(** * FeaturedTable : the editing operations on the featured list *)

Inductive FeaturedKey := KName | KSize | KPrice | KImageUrl.

(** [{ ...it, [k]: v }] *)
Definition set_field (it : FeaturedItem) (k : FeaturedKey) (v : string) : FeaturedItem :=
  match k with
  | KName => mkFeatured v (f_size it) (f_price it) (f_imageUrl it)
  | KSize => mkFeatured (f_name it) v (f_price it) (f_imageUrl it)
  | KPrice => mkFeatured (f_name it) (f_size it) v (f_imageUrl it)
  | KImageUrl => mkFeatured (f_name it) (f_size it) (f_price it) v
  end.

(** The value standing for an [undefined] array slot (a hole, or the
    [undefined] that [arrayMove] inserts when nothing was removed); no
    operation enabled by the table reaches such a slot. *)
Definition undefined_item : FeaturedItem := mkFeatured "" "" "" "".

(** [copy[i] = x] on a JavaScript array: beyond the end the array grows,
    the skipped slots being holes. *)
Definition js_set {A} (hole : A) (l : list A) (i : nat) (x : A) : list A :=
  if i <? length l then app (firstn i l) (x :: skipn (S i) l)
  else app l (app (repeat hole (i - length l)) [x]).

(** [Array.prototype.splice(start, deleteCount, ...items)] on an array:
    the array afterwards and the removed elements. *)
Definition js_splice {A} (l : list A) (start : Z) (deleteCount : nat) (items : list A)
  : list A * list A :=
  let len := Z.of_nat (length l) in
  let actualStart := Z.to_nat (if (start <? 0)%Z then Z.max (len + start) 0 else Z.min start len) in
  let dc := Nat.min deleteCount (length l - actualStart) in
  (app (firstn actualStart l) (app items (skipn (actualStart + dc) l)),
   firstn dc (skipn actualStart l)).

(** [arrayMove] of @dnd-kit/sortable:
    [newArray.splice(to < 0 ? newArray.length + to : to, 0,
                     newArray.splice(from, 1)[0])]; the first argument is
    evaluated before the inner [splice]. *)
Definition arrayMove {A} (hole : A) (l : list A) (from to : Z) : list A :=
  let start := if (to <? 0)%Z then (Z.of_nat (length l) + to)%Z else to in
  let '(l1, removed) := js_splice l from 1 [] in
  let x := match removed with y :: _ => y | [] => hole end in
  fst (js_splice l1 start 0 [x]).

(** [items.findIndex((_, i) => String(i) === id)] for the row ids
    [String(i)]; the id is given by its index. *)
Definition findIndex_id (items : list FeaturedItem) (id : nat) : Z :=
  if id <? length items then Z.of_nat id else (-1)%Z.

(** [stripPathAndLower(s)]: drop up to the last '/' or '\' before the first
    line terminator, lower-case, trim. *)
Definition is_slash (c : ascii) : bool := (code c =? 47) || (code c =? 92).

Fixpoint last_slash (l : list ascii) (i : nat) (acc : option nat) : option nat :=
  match l with
  | [] => acc
  | c :: t => if is_line_terminator c then acc
              else last_slash t (S i) (if is_slash c then Some i else acc)
  end.

Definition stripPathAndLower (s : string) : string :=
  let l := list_ascii_of_string s in
  let justFile := match last_slash l 0 None with Some p => skipn (S p) l | None => l end in
  js_trim (string_of_list_ascii (lower_list justFile)).

(** [noExt(nameLower)]: remove a final [.ext] with [ext] alphanumeric. *)
Definition noExt (s : string) : string :=
  let r := rev (list_ascii_of_string s) in
  let ext := take_while (fun c => is_alpha c || is_digit c) r in
  match ext, skipn (length ext) r with
  | _ :: _, c :: rest => if code c =? 46 then string_of_list_ascii (rev rest) else s
  | _, _ => s
  end.

(** The auto-mapping effect: [nameToToken.get(key)] is given as a
    function; a name is replaced by the token found for it. *)
Definition automap_item (nameToToken : string -> option string) (it : FeaturedItem) : FeaturedItem :=
  let src := js_trim (f_imageUrl it) in
  if String.eqb src "" || String.prefix "asset://" src || String.prefix "media://" src then it
  else
    let base := stripPathAndLower src in
    let token := match nameToToken base with
                 | Some t => if String.eqb t "" then nameToToken (noExt base) else Some t
                 | None => nameToToken (noExt base)
                 end in
    match token with
    | Some t => if negb (String.eqb t "") && negb (String.eqb t (f_imageUrl it))
                then set_field it KImageUrl t else it
    | None => it
    end.

(** The state changes the table can make.  [DragEnd a o] is [onDragEnd]
    with [active.id = String(a)] and [over] absent or [String(j)]. *)
Inductive FeaturedOp :=
  | AddRow
  | UpdateField (i : nat) (k : FeaturedKey) (v : string)
  | RemoveRow (i : nat)
  | DragEnd (active : nat) (over : option nat)
  | AutoMap (nameToToken : string -> option string).

(** Whether the control behind an operation is rendered for [items]: the
    "+ Add row" button only when [canAddMore = items.length < 9], the row
    controls and the drag handles for the rendered rows. *)
Definition enabled (items : list FeaturedItem) (op : FeaturedOp) : bool :=
  match op with
  | AddRow => length items <? 9
  | UpdateField i _ _ | RemoveRow i => i <? length items
  | DragEnd a o => (a <? length items) && match o with Some j => j <? length items | None => true end
  | AutoMap _ => true
  end.

Definition new_featured_row : FeaturedItem := mkFeatured "" "" "$0.00" "".

(** The state after the operation ([setItems] with its updater). *)
Definition apply_op (items : list FeaturedItem) (op : FeaturedOp) : list FeaturedItem :=
  match op with
  | AddRow => app items [new_featured_row]
  | UpdateField i k v =>
      js_set undefined_item items i (set_field (nth i items undefined_item) k v)
  | RemoveRow i => fst (js_splice items (Z.of_nat i) 1 [])
  | DragEnd a o =>
      match o with
      | None => items
      | Some j => if a =? j then items
                  else arrayMove undefined_item items (findIndex_id items a) (findIndex_id items j)
      end
  | AutoMap f => map (automap_item f) items
  end.

Definition featured_step (items items' : list FeaturedItem) : Prop :=
  exists op, enabled items op = true /\ items' = apply_op items op.

Open Scope Q_scope.

(** The items [parseFeaturedRows] keeps, in order: the rows whose trimmed
    "Product Name" is not empty, each read as in the [forEach] callback. *)
Definition featured_of_row (r : JsonRow) : FeaturedItem :=
  mkFeatured (cellStr r "Product Name") (cellStr r "Size") (toStr (assoc "Price" r))
             (cellStr r "Image File").

Definition featured_valid_items (rs : list JsonRow) : list FeaturedItem :=
  map featured_of_row (filter (fun r => negb (String.eqb (cellStr r "Product Name") "")) rs).

(* ------------------------------------------------------------------ *)
(** * FitStage.tsx and the PNG export of App.tsx *)

(** [fitScale = Math.max(200, el.clientWidth - 24) / designW] *)
Definition fit_scale (designW clientWidth : Q) : Q := Qmax 200 (clientWidth - 24) / designW.

(** [s = fitOn ? fitScale : zoom] *)
Definition stage_scale (designW zoom : Q) (fitOn : bool) (clientWidth : Q) : Q :=
  if fitOn then fit_scale designW clientWidth else zoom.

Record StageSize := mkStageSize { st_w : Q; st_h : Q }.

(** The [Stage]'s [width]/[height]: [setSize({w: designW*s, h: designH*s})]. *)
Definition FitStage_size (designW designH zoom : Q) (fitOn : bool) (clientWidth : Q) : StageSize :=
  let s := stage_scale designW zoom fitOn clientWidth in
  mkStageSize (designW * s) (designH * s).

(** Konva's [stage.toDataURL({pixelRatio})] draws the stage into a canvas
    of [stage.width() * pixelRatio] by [stage.height() * pixelRatio]
    pixels (a canvas dimension is truncated to an integer). *)
Definition toDataURL_dims (st : StageSize) (pixelRatio : Q) : Z * Z :=
  (Qfloor_ (st_w st * pixelRatio), Qfloor_ (st_h st * pixelRatio)).

(** [downloadCurrent]: [s.toDataURL({ pixelRatio: 2 })] on the stage that
    [FitStage] renders with [designW = CANVAS_W], [designH = CANVAS_H]. *)
Definition downloadCurrent_dims (zoom : Q) (fitOn : bool) (clientWidth : Q) : Z * Z :=
  toDataURL_dims (FitStage_size CANVAS_W CANVAS_H zoom fitOn clientWidth) 2.

(** [downloadAll]: the same with [pixelRatio: 3]. *)
Definition downloadAll_dims (zoom : Q) (fitOn : bool) (clientWidth : Q) : Z * Z :=
  toDataURL_dims (FitStage_size CANVAS_W CANVAS_H zoom fitOn clientWidth) 3.

Open Scope nat_scope.

(** Sample inputs of the examples below. *)
Definition sample_featured_row (n : string) : JsonRow :=
  [("Product Name", CVal n); ("Size", CVal "1 lb"); ("Price", CVal "$1.99"); ("Image File", CVal "")].

Definition empty_workbook_reader (_ : unit) : Result Workbook := Ok (mkWorkbook [] []).

Definition missing_all_sheets_result : ParseResult :=
  mkParseResult empty_data
    [issue LError "missing_sheets"
       "Missing required sheets: Featured Items, Grocery, Frozen Foods, Meat, Produce."
       None None None].

Definition sample_state : AppState :=
  mkApp [new_featured_row] [mkRow "Milk" "1 L" "$2.49"] [] [] [] "2026-10-01" "2026-10-07"
        TGrocery None.

Definition unreadable_reader (_ : unit) : Result Workbook := Throw "Unsupported file".

Open Scope Q_scope.

(** Comparisons of rationals, unfolded to integer arithmetic. *)
Ltac qcrunch :=
  unfold Qle, Qlt in *; cbn [Qnum Qden Qmult Qplus inject_Z] in *;
  rewrite ?Pos2Z.inj_mul in *; lia.

(* ------------------------------------------------------------------ *)
(** * utils/xlsx.ts : the row loop of [parseSimpleRows] *)

Open Scope nat_scope.

(** The [raw.forEach] callback of [parseSimpleRows], as the local loop of
    [parseSimpleRows] above. *)
Fixpoint simple_forEach (sheetName : string) (rs : list JsonRow) (out : list Row) (dropped : nat)
  (iss : list WorkbookIssue) : list Row * list WorkbookIssue :=
  match rs with
  | [] => (out, iss)
  | r :: rs' =>
    let nm := cellStr r "Product Name" in
    let sz := cellStr r "Size" in
    let pr := toStr (assoc "Price" r) in
    if String.eqb nm "" then
      let iss' := if S dropped =? 1 then
                    app iss [issue LWarning "rows_missing_name"
                             ("Some rows in “" ++ sheetName
                              ++ "” were skipped because “Product Name” is required.")
                             (Some sheetName) None None]
                  else iss in
      simple_forEach sheetName rs' out (S dropped) iss'
    else simple_forEach sheetName rs' (app out [mkRow nm sz pr]) dropped iss
  end.

(** The rows [parseSimpleRows] keeps: those with a non-empty trimmed
    "Product Name". *)
Definition row_named (r : JsonRow) : bool := negb (String.eqb (cellStr r "Product Name") "").

Definition row_of (r : JsonRow) : Row :=
  mkRow (cellStr r "Product Name") (cellStr r "Size") (toStr (assoc "Price" r)).

(** The indices of the rows of a sheet that satisfy [f], from index [i]. *)
Fixpoint indices_from {A} (f : A -> bool) (i : nat) (l : list A) : list nat :=
  match l with
  | [] => []
  | x :: t => if f x then i :: indices_from f (S i) t else indices_from f (S i) t
  end.

(* ------------------------------------------------------------------ *)
(** * unnamed/part_003 : the earlier [parseWorkbook] *)

(** [r[key]] passed on as [p] to [normalizePrice(p)]: [None] for a missing
    key or an empty ([null]) cell. *)
Definition cell_value (r : JsonRow) (key : string) : option string :=
  match assoc key r with Some (CVal s) => Some s | _ => None end.

(** [get(n)]: throws when the sheet is absent. *)
Definition legacy_get (wb : Workbook) (n : string) : Result (list JsonRow) :=
  match sheetToJson wb n with
  | Some rows => Ok rows
  | None => Throw ("Missing sheet: " ++ n)
  end.

Definition legacy_featured_item (r : JsonRow) : FeaturedItem :=
  mkFeatured (cellStr r "Product Name") (cellStr r "Size")
             (normalizePrice (cell_value r "Price")) (cellStr r "Image File").

(** [rows(a)]: every row mapped, then the rows without a name dropped. *)
Definition legacy_rows (a : list JsonRow) : list Row :=
  filter (fun r => negb (String.eqb (name r) ""))
    (map (fun r => mkRow (cellStr r "Product Name") (cellStr r "Size")
                         (normalizePrice (cell_value r "Price"))) a).

(** The earlier [parseWorkbook(buf)]: [XLSX.read] (which may throw) is
    given by its outcome; the sheets are read in the order of the code. *)
Definition legacy_parseWorkbook (read : Result Workbook) : Result WorkbookData :=
  wb <- read ;;
  fr <- legacy_get wb "Featured Items" ;;
  let featured := firstn 9 (map legacy_featured_item fr) in
  g <- legacy_get wb "Grocery" ;;
  fz <- legacy_get wb "Frozen Foods" ;;
  m <- legacy_get wb "Meat" ;;
  p <- legacy_get wb "Produce" ;;
  Ok (mkData featured (legacy_rows g) (legacy_rows fz) (legacy_rows m) (legacy_rows p)).

(* ------------------------------------------------------------------ *)
(** * utils/media.ts : media items and tokens *)

(** [s.slice(n)] *)
Definition str_slice (n : nat) (s : string) : string := substring n (String.length s - n) s.

Record MediaItem := mkMedia {
  m_id : string; m_name : string; m_type : string; m_size : Q; m_createdAt : Q }.

(** [tokenFor(id)] *)
Definition tokenFor (id : string) : string :=
  if String.prefix "asset:" id then "asset://" ++ str_slice 6 id else "media://" ++ id.

(** [tokenToId(token)]: [token.replace(/^media:\/\//, '')] in the second
    case. *)
Definition tokenToId (token : string) : string :=
  if String.prefix "asset://" token then "asset:" ++ str_slice 8 token
  else if String.prefix "media://" token then str_slice 8 token
  else token.

(** [assetNameFromPath(p)]: [p.split('/').pop() || p]. *)
Definition assetNameFromPath (p : string) : string :=
  let seg := last (split_on 47 (list_ascii_of_string p)) [] in
  match seg with [] => p | _ => string_of_list_ascii seg end.

(** [listBundledAssets()] over the paths of the asset manifest. *)
Definition listBundledAssets (paths : list string) : list MediaItem :=
  map (fun path => let nm := assetNameFromPath path in
                   mkMedia ("asset:" ++ nm) nm "asset/image" 0 0) paths.

(* ------------------------------------------------------------------ *)
(** * FeaturedTable (part_001) : MediaAutocomplete *)

(** [new Map(items.map(i => [i.id, i.name])).get(id)]: a later entry for
    an id overwrites an earlier one. *)
Definition idToName_get (items : list MediaItem) (id : string) : option string :=
  match find (fun i => String.eqb (m_id i) id) (rev items) with
  | Some i => Some (m_name i)
  | None => None
  end.

(** [displayNameFor(src)] *)
Definition displayNameFor (items : list MediaItem) (src : string) : string :=
  if String.eqb src "" then ""
  else if String.prefix "asset://" src then str_slice 8 src
  else if String.prefix "media://" src then
    match idToName_get items (str_slice 8 src) with Some n => n | None => "(unnamed media)" end
  else "".

(** [s.includes(needle)] *)
Definition includes (s needle : string) : bool :=
  contains (list_ascii_of_string needle) (list_ascii_of_string s).

Section MediaFilter.

(** [String.prototype.toLowerCase] (its Unicode case mapping is left
    abstract). *)
Variable toLowerCase : string -> string.

(** [filtered]: at most 20 items, those whose lower-cased name contains
    the lower-cased query. *)
Definition media_filtered (items : list MediaItem) (q : string) : list MediaItem :=
  let needle := toLowerCase q in
  if String.eqb needle "" then firstn 20 items
  else firstn 20 (filter (fun i => includes (toLowerCase (m_name i)) needle) items).

End MediaFilter.

(** The state of the autocomplete that the keyboard changes. *)
Record AcState := mkAc { ac_open : bool; ac_q : string; ac_active : Z }.

Inductive AcKey := KEscape | KArrowDown | KArrowUp | KHome | KEnd | KEnter | KOtherKey.

(** [selectIndex(idx)]: the token handed to [onPick], if [filtered[idx]]
    exists. *)
Definition selectIndex (filtered : list MediaItem) (st : AcState) (idx : Z)
  : AcState * option string :=
  match (if (idx <? 0)%Z then None else nth_error filtered (Z.to_nat idx)) with
  | Some it => (mkAc false "" (-1), Some (tokenFor (m_id it)))
  | None => (st, None)
  end.

(** [onKeyDown(e)] for the key [k]. *)
Definition onKeyDown (filtered : list MediaItem) (st : AcState) (k : AcKey)
  : AcState * option string :=
  let n := Z.of_nat (length filtered) in
  let '(mkAc open q active) := st in
  match k with
  | KEscape => (mkAc false q (-1), None)
  | _ =>
    if negb open && match k with KArrowDown | KEnter => true | _ => false end then
      (mkAc true q (if (n =? 0)%Z then -1 else 0), None)
    else if negb open then (st, None)
    else match k with
      | KArrowDown => (mkAc open q (Z.min ((if (active <? 0)%Z then -1 else active) + 1) (n - 1)), None)
      | KArrowUp => (mkAc open q (Z.max ((if (active <? 0)%Z then n else active) - 1) 0), None)
      | KHome => (mkAc open q (if (n =? 0)%Z then -1 else 0), None)
      | KEnd => (mkAc open q (if (n =? 0)%Z then -1 else n - 1), None)
      | KEnter => if (0 <=? active)%Z then selectIndex filtered st active else (st, None)
      | _ => (st, None)
      end
  end.

(** The effect run when [open], [q] or [filtered.length] changes. *)
Definition ac_reset_effect (filtered : list MediaItem) (st : AcState) : AcState :=
  let n := Z.of_nat (length filtered) in
  if ac_open st then mkAc true (ac_q st) (if (n =? 0)%Z then -1 else 0)
  else mkAc false (ac_q st) (-1).

Open Scope Q_scope.

(* ------------------------------------------------------------------ *)
(** * FeaturedTable (part_001) : useFloating *)

(** [Math.round(x)] *)
Definition js_round (x : Q) : Z := Qfloor_ (x + (1 # 2)).

(** The fields of [anchorEl.getBoundingClientRect()] that are read. *)
Record ClientRect := mkClientRect { cr_left : Q; cr_top : Q; cr_bottom : Q; cr_width : Q }.

Inductive FloatingPos :=
  | FBottom (left top width : Z) (maxHeight : Q)
  | FTop (left bottom width : Z) (maxHeight : Q).

(** [compute()] of [useFloating(anchorEl, offset, maxMenuHeight)], with
    [window.innerWidth = vw] and [window.innerHeight = vh]. *)
Definition floating_compute (r : ClientRect) (vw vh offset maxMenuHeight : Q) : FloatingPos :=
  let margin := 8 in
  let left := js_round (Qmax margin (Qmin (cr_left r) (vw - cr_width r - margin))) in
  let width := js_round (cr_width r) in
  let spaceBelow := vh - cr_bottom r in
  let spaceAbove := cr_top r in
  let desired := Qmin maxMenuHeight (vh * (5 # 10)) in
  if Qle_bool desired spaceBelow || Qle_bool spaceAbove spaceBelow then
    FBottom left (js_round (cr_bottom r + offset)) width
      (Qmax 140 (Qmin maxMenuHeight (spaceBelow - offset - 4)))
  else
    FTop left (js_round (vh - (cr_top r - offset))) width
      (Qmax 140 (Qmin maxMenuHeight (spaceAbove - offset - 4))).

Definition fp_left (p : FloatingPos) : Z := match p with FBottom l _ _ _ | FTop l _ _ _ => l end.
Definition fp_maxHeight (p : FloatingPos) : Q := match p with FBottom _ _ _ m | FTop _ _ _ m => m end.
Definition fp_below (p : FloatingPos) : bool := match p with FBottom _ _ _ _ => true | FTop _ _ _ _ => false end.

(* ------------------------------------------------------------------ *)
(** * FeaturedTable (part_001) : RowItem validation *)

(** The characters kept by [.replace(/[^0-9.]/g, '')]. *)
Definition keep_digit_dot (c : ascii) : bool := is_digit c || (nat_of_ascii c =? 46)%nat.

(** [x || 0] on a number. *)
Definition or_zero (v : JSNum) : JSNum :=
  match v with
  | NaN => Finite 0
  | Finite x => if Qeq_bool x 0 then Finite 0 else v
  | _ => v
  end.

(** The binary64 value of the literal [0.01]. *)
Definition lit_0_01 : Q := match round_binary64 (1 # 100) with Finite x => x | _ => 0 end.

(** [nameError = !item.name.trim()] *)
Definition RowItem_nameError (it : FeaturedItem) : bool := String.eqb (js_trim (f_name it)) "".

(** [priceVal = parseFloat(item.price.replace(/[^0-9.]/g, '')) || 0];
    [priceError = priceVal < 0.01]. *)
Definition RowItem_priceVal (it : FeaturedItem) : JSNum :=
  or_zero (parseFloat (string_of_list_ascii (filter keep_digit_dot (list_ascii_of_string (f_price it))))).

Definition RowItem_priceError (it : FeaturedItem) : bool :=
  match RowItem_priceVal it with
  | Finite x => Qltb x lit_0_01
  | NegInf => true
  | PosInf | NaN => false
  end.

(* ------------------------------------------------------------------ *)
(** * ZoomBar.tsx *)

(** [pct = Math.round(zoom * 100)] *)
Definition zoom_pct (zoom : Q) : Z := js_round (zoom * 100).

(** [minus]: nothing with fit-width on, else
    [setZoom(Math.max(5, Math.round(pct - 10)) / 100)]. *)
Definition ZoomBar_minus (fitOn : bool) (zoom : Q) : Q :=
  if fitOn then zoom
  else inject_Z (Z.max 5 (js_round (inject_Z (zoom_pct zoom) - 10))) / 100.

(** [plus]: [setZoom(Math.min(500, Math.round(pct + 10)) / 100)]. *)
Definition ZoomBar_plus (fitOn : bool) (zoom : Q) : Q :=
  if fitOn then zoom
  else inject_Z (Z.min 500 (js_round (inject_Z (zoom_pct zoom) + 10))) / 100.

(* ------------------------------------------------------------------ *)
(** * CanvasComposer.tsx : NetworkImage placement, FeaturedLayer cards,
    Footer, GroceryLayer *)

Record Placement := mkPlace { p_x : Q; p_y : Q; p_w : Q; p_h : Q }.

(** The "contain" math of [NetworkImage] for an image of [imgW] by [imgH]. *)
Definition contain_place (x y w h padding imgW imgH : Q) : Placement :=
  let iw := Qmax 0 (w - 2 * padding) in
  let ih := Qmax 0 (h - 2 * padding) in
  let sx := iw / imgW in
  let sy := ih / imgH in
  let scale := Qmin sx sy in
  let drawW := imgW * scale in
  let drawH := imgH * scale in
  let drawX := x + padding + (iw - drawW) / 2 in
  let drawY := y + padding + (ih - drawH) / 2 in
  mkPlace drawX drawY drawW drawH.

(** The card of item [i] in [FeaturedLayer] (its [Group] position and the
    size of its outer [Rect]). *)
Definition FeaturedLayer_card (i : nat) : Placement :=
  let top := 700 in
  let col := 3 in
  let row := 3 in
  let gx := 70 in
  let gy := 90 in
  let cardW := (CANVAS_W - 2 * MARGIN - (col - 1) * gx) / col in
  let cardH := (CANVAS_H - top - 420 - (row - 1) * gy) / row in
  let r := Nat.div i 3 in
  let c := Nat.modulo i 3 in
  let x := MARGIN + inject_Z (Z.of_nat c) * (cardW + gx) in
  let y := top + inject_Z (Z.of_nat r) * (cardH + gy) in
  mkPlace x y cardW cardH.

(** [Footer]: the bar is drawn from [CANVAS_H - barH], [barH = 220]. *)
Definition Footer_top : Q := CANVAS_H - 220.

(** [theme.saleItem?.fontScaleGrocery ?? 1] *)
Definition grocery_font_scale (fontScaleGrocery : option Q) : Q :=
  match fontScaleGrocery with Some s => s | None => 1 end.

(** The bottom of the [TableSection] that [GroceryLayer] draws at
    [yStart = 580]. *)
Definition grocery_table_bottom (rows : list Row) (fontScale : Q) : Q :=
  580 + height (sectionMetrics (length rows) fontScale).

(** The [active] index of the autocomplete stays a valid position of the
    list, or [-1] for none. *)
Definition ac_in_range (f : list MediaItem) (st : AcState) : Prop :=
  (-1 <= ac_active st <= Z.of_nat (length f) - 1)%Z.

(** Two placements that do not overlap. *)
Definition separated (a b : Placement) : bool :=
  Qle_bool (p_x a + p_w a) (p_x b) || Qle_bool (p_x b + p_w b) (p_x a)
  || Qle_bool (p_y a + p_h a) (p_y b) || Qle_bool (p_y b + p_h b) (p_y a).

(** A card lies within the margins, below [top = 700] and above the footer. *)
Definition card_inside (a : Placement) : bool :=
  Qle_bool MARGIN (p_x a) && Qle_bool (p_x a + p_w a) (CANVAS_W - MARGIN)
  && Qle_bool 700 (p_y a) && Qle_bool (p_y a + p_h a) Footer_top.

(** Case analysis on [Qmax]/[Qmin] in the goal and the hypotheses. *)
Ltac qminmax :=
  repeat match goal with
  | |- context [Qmax ?a ?b] => let Hm := fresh in
      destruct (Q.max_spec a b) as [[? Hm]|[? Hm]]; rewrite Hm in *; clear Hm
  | |- context [Qmin ?a ?b] => let Hm := fresh in
      destruct (Q.min_spec a b) as [[? Hm]|[? Hm]]; rewrite Hm in *; clear Hm
  | H : context [Qmax ?a ?b] |- _ => let Hm := fresh in
      destruct (Q.max_spec a b) as [[? Hm]|[? Hm]]; rewrite Hm in *; clear Hm
  | H : context [Qmin ?a ?b] |- _ => let Hm := fresh in
      destruct (Q.min_spec a b) as [[? Hm]|[? Hm]]; rewrite Hm in *; clear Hm
  end.

(** Characters of a price text without a nonzero digit. *)
Definition zero_or_dot (c : ascii) : Prop := c = "0"%char \/ c = "."%char.

Open Scope nat_scope.

(** The issues [parseSimpleRows] pushes for rows without a name and for a
    sheet without any valid row. *)
Definition rows_missing_name_issue (sh : string) : WorkbookIssue :=
  issue LWarning "rows_missing_name"
    ("Some rows in “" ++ sh ++ "” were skipped because “Product Name” is required.")
    (Some sh) None None.

Definition rows_no_valid_rows_issue (sh : string) : WorkbookIssue :=
  issue LError "rows_no_valid_rows" ("“" ++ sh ++ "” has no valid rows after parsing.")
    (Some sh) None None.

(** The [row] fields of the [featured_missing_name] and
    [featured_missing_price] issues of a list. *)
Definition featured_name_rows (new : list WorkbookIssue) : list (option nat) :=
  map row (filter (fun x => String.eqb (icode x) "featured_missing_name") new).

Definition featured_price_rows (new : list WorkbookIssue) : list (option nat) :=
  map row (filter (fun x => String.eqb (icode x) "featured_missing_price") new).

(** A Featured row with a name but an empty [Price]. *)
Definition price_missing (r : JsonRow) : bool := row_named r && String.eqb (toStr (assoc "Price" r)) "".

(** Every issue of [l] has one of the codes [cs]. *)
Definition issue_codes_in (cs : list string) (l : list WorkbookIssue) : bool :=
  forallb (fun x => existsb (String.eqb (icode x)) cs) l.

Definition featured_codes : list string :=
  ["missing_columns_featured"; "featured_missing_name"; "featured_missing_price";
   "featured_no_valid_rows"; "featured_dropped_rows"].

Definition rows_codes : list string :=
  ["missing_columns_rows"; "rows_missing_name"; "rows_no_valid_rows"].

(** [wb.Sheets[name]] is missing. *)
Definition sheet_absent (wb : Workbook) (n : string) : bool :=
  match sheetToJson wb n with None => true | Some _ => false end.

(** Sample inputs of the examples below. *)
Definition sample_media : list MediaItem :=
  [mkMedia "m1" "Apples" "image/png" 1024 0;
   mkMedia "asset:logo.png" "logo.png" "asset/image" 0 0].

Definition sample_template : Workbook :=
  mkWorkbook ["Featured Items"; "Grocery"; "Frozen Foods"; "Meat"; "Produce"; "Autocrat Job Settings"]
    [("Featured Items", []); ("Grocery", []); ("Frozen Foods", []); ("Meat", []); ("Produce", []);
     ("Autocrat Job Settings", [])].

Definition sample_template_reader (_ : unit) : Result Workbook := Ok sample_template.

Definition sample_extra_sheet_reader (_ : unit) : Result Workbook :=
  Ok (mkWorkbook ["Grocery"; "Notes"] [("Grocery", []); ("Notes", [])]).

Definition sample_legacy_workbook : Workbook :=
  mkWorkbook []
    [("Featured Items", map sample_featured_row ["a"; "b"; "c"; "d"; "e"; "f"; "g"; "h"; "i"; "j"]);
     ("Grocery", [sample_featured_row "Milk"; sample_featured_row ""]);
     ("Frozen Foods", []); ("Meat", []); ("Produce", [])].

Definition sample_featured_items : list FeaturedItem :=
  [mkFeatured "Apples" "1 lb" "$1.99" ""; mkFeatured "Milk" "1 L" "$2.49" ""; new_featured_row].

Open Scope Q_scope.

(** [s.padStart(2, '0')] *)
Definition padStart2 (s : string) : string :=
  if (2 <=? String.length s)%nat then s
  else string_of_list_ascii (repeat "0"%char (2 - String.length s)) ++ s.

(** [Math.floor(v)] (the sign of zero is not kept). *)
Definition js_floor (v : JSNum) : JSNum :=
  match v with Finite x => Finite (inject_Z (Qfloor_ x)) | _ => v end.

(** [v / 100] *)
Definition js_div100 (v : JSNum) : JSNum :=
  match v with
  | Finite x => round_binary64 (x / 100)
  | PosInf => PosInf | NegInf => NegInf | NaN => NaN
  end.

(** [v % 100]: [v - 100 * q] for the integer [q] of [v / 100] truncated
    toward zero, computed exactly (ECMA-262 Number::remainder). *)
Definition js_mod100 (v : JSNum) : JSNum :=
  match v with
  | Finite x =>
      let q := if Qltb x 0 then (- Qfloor_ (- x / 100))%Z else Qfloor_ (x / 100) in
      Finite (x - 100 * inject_Z q)
  | _ => NaN
  end.

(** [String(v)] (and [`${v}`]) for a number whose finite values are
    integers, as all the numbers printed below are. *)
Definition js_int_toString (v : JSNum) : string :=
  match v with
  | NaN => "NaN"
  | PosInf => "Infinity"
  | NegInf => "-Infinity"
  | Finite x =>
      let s := if Qltb x 0 then "-" else "" in
      let a := Qabs x in
      if Qle_bool (pow10Q 21) a then s ++ number_toString_big a
      else s ++ string_of_Z (Qfloor_ a)
  end.

(** [parseInt(digits, 10)] on a non-empty string of decimal digits. *)
Definition parseInt10_digits (ds : list ascii) : JSNum :=
  round_binary64 (inject_Z (digits_value 0 ds)).

(** [maskCurrencyFromDigits(input)]; [(input.match(/\d+/g)||[]).join('')]
    is the digits of [input] in order. *)
Definition maskCurrencyFromDigits (input : string) : string :=
  let digits := filter is_digit (list_ascii_of_string input) in
  match digits with
  | [] => ""
  | _ =>
      let cents := parseInt10_digits digits in
      let dollars := js_floor (js_div100 cents) in
      let c := padStart2 (js_int_toString (js_mod100 cents)) in
      "$" ++ js_int_toString dollars ++ "." ++ c
  end.

(** A whole number of cents written as dollars and two cent digits. *)
Definition currency_of_cents (n : Z) : string :=
  "$" ++ string_of_Z (n / 100) ++ "."
  ++ string_of_list_ascii [digit_char (n mod 100 / 10); digit_char (n mod 10)].

(* ================================================================== *)
(** * Theorems *)

(** Section metrics unfold to the code's product
    [rowHBase * (densityScale * fontScale)]. *)
Lemma sectionMetrics_rowH (n : nat) (fontScale : Q) :
  rowH (sectionMetrics n fontScale) = 72 * (densityScale n * fontScale).
Proof. reflexivity. Qed.

Lemma sectionMetrics_height (n : nat) (fontScale : Q) :
  height (sectionMetrics n fontScale)
  = 120 + 20 + inject_Z (Z.of_nat n) * rowH (sectionMetrics n fontScale).
Proof. reflexivity. Qed.

Lemma clamp_bounds (x : Q) : 85 # 100 <= clamp x (85 # 100) 1 <= 1.
Proof.
  unfold clamp. split.
  - apply Q.le_max_l.
  - apply Q.max_lub.
    + unfold Qle; simpl; lia.
    + apply Q.le_min_l.
Qed.

Example groups_offsets_3_5_2 :
  let r := mkRow "a" "b" "$1.00" in
  let o := GroupsLayer_offsets (repeat r 3) (repeat r 5) (repeat r 2) 1 in
  yFrozen o == 580 /\ yMeat o == 972 /\ yProd o == 1508.
Proof. vm_compute; repeat split; reflexivity. Qed.

(** C1: in the Groups layout, each later section starts at the previous
    section's start plus the previous section's computed height plus half
    of the later section's own row height, for any three row lists and a
    common font scale; in particular for row counts (3,5,2). *)
Theorem groups_stacking_offsets :
  forall (frozen meat produce : list Row) (scale : Q),
    let o := GroupsLayer_offsets frozen meat produce scale in
    let fM := sectionMetrics (length frozen) scale in
    let mM := sectionMetrics (length meat) scale in
    let pM := sectionMetrics (length produce) scale in
    yFrozen o == 580
    /\ yMeat o == yFrozen o + height fM + (1 # 2) * rowH mM
    /\ yProd o == yMeat o + height mM + (1 # 2) * rowH pM
    /\ (forall r : Row,
          let o' := GroupsLayer_offsets (repeat r 3) (repeat r 5) (repeat r 2) scale in
          yMeat o' == yFrozen o' + height (sectionMetrics 3 scale)
                      + (1 # 2) * rowH (sectionMetrics 5 scale)).
Proof.
  intros frozen meat produce scale o fM mM pM.
  subst o fM mM pM; unfold GroupsLayer_offsets, groups_gap; simpl.
  repeat split; try reflexivity; try ring.
  intros r; simpl; ring.
Qed.

Lemma densityScale_1 : densityScale 1 = 1.
Proof. vm_compute. reflexivity. Qed.

Lemma densityScale_30 : densityScale 30 = 1.
Proof. vm_compute. reflexivity. Qed.

(** C2: for every row count and font scale, the density scale used by
    [sectionMetrics] is [clamp(30 / max(rowCount, 1), 0.85, 1.0)], it lies
    in [[0.85, 1.0]], and the row height at one row is at least the row
    height at thirty rows. *)
Theorem density_scale_clamped_rowH_monotone :
  forall (n : nat) (fontScale : Q),
    rowH (sectionMetrics n fontScale)
      = 72 * (clamp (30 / max_rows_1 n) (85 # 100) 1 * fontScale)
    /\ densityScale n = clamp (30 / max_rows_1 n) (85 # 100) 1
    /\ 85 # 100 <= densityScale n <= 1
    /\ rowH (sectionMetrics 30 fontScale) <= rowH (sectionMetrics 1 fontScale).
Proof.
  intros n fontScale.
  split; [reflexivity|].
  split; [reflexivity|].
  split; [apply clamp_bounds|].
  rewrite !sectionMetrics_rowH, densityScale_1, densityScale_30.
  apply Qle_refl.
Qed.

Lemma badge_scale_cases (len : nat) :
  (6 <= len /\ badge_scale len = 128 # 100)%nat
  \/ (len = 5 /\ badge_scale len = 116 # 100)%nat
  \/ (len = 4 /\ badge_scale len = 106 # 100)%nat
  \/ (len < 4 /\ badge_scale len = 96 # 100)%nat.
Proof.
  unfold badge_scale.
  destruct (6 <=? len)%nat eqn:E6; [left; split; [apply Nat.leb_le; exact E6|reflexivity]|].
  apply Nat.leb_gt in E6.
  destruct (5 <=? len)%nat eqn:E5;
    [right; left; split; [apply Nat.leb_le in E5; lia|reflexivity]|].
  apply Nat.leb_gt in E5.
  destruct (4 <=? len)%nat eqn:E4;
    [right; right; left; split; [apply Nat.leb_le in E4; lia|reflexivity]|].
  apply Nat.leb_gt in E4.
  right; right; right; split; [lia|reflexivity].
Qed.

(** C3: the price-badge sizer picks scale 1.28 for length >= 6, 1.16 for
    length 5, 1.06 for length 4 and 0.96 otherwise; the badge is
    [240 * scale] wide, [130 * scale] high, with font
    [(60 if length >= 5 else 56) * scale]; "$1234.56" (8 characters) is in
    the 1.28 bucket with width exactly [240 * 1.28]. *)
Theorem price_badge_size_steps :
  forall p : string,
    let g := PriceBadge_geometry p in
    let len := String.length p in
    ((6 <= len /\ b_scale g = 128 # 100)%nat
     \/ (len = 5 /\ b_scale g = 116 # 100)%nat
     \/ (len = 4 /\ b_scale g = 106 # 100)%nat
     \/ (len < 4 /\ b_scale g = 96 # 100)%nat)
    /\ b_W g = 240 * b_scale g
    /\ b_H g = 130 * b_scale g
    /\ b_font g = (if (5 <=? len)%nat then 60 else 56) * b_scale g
    /\ String.length "$1234.56" = 8%nat
    /\ b_scale (PriceBadge_geometry "$1234.56") = 128 # 100
    /\ b_W (PriceBadge_geometry "$1234.56") = 240 * (128 # 100).
Proof.
  intros p g len.
  split; [apply badge_scale_cases|].
  repeat split; reflexivity.
Qed.

(** C4 (as stated, refuted): "$5.00" is not sized in the 0.96-1.06
    bucket. *)
Lemma price_badge_5_00_not_low_bucket :
  ~ (96 # 100 <= b_scale (PriceBadge_geometry "$5.00") <= 106 # 100).
Proof. vm_compute. intros [_ H]. apply H. reflexivity. Qed.

(** C4 (amended): "$5.00" has five characters, so [PriceBadge] sizes it
    with the length-5 scale 1.16 and font [60 * 1.16]. *)
Theorem price_badge_5_00_scale :
  String.length "$5.00" = 5%nat
  /\ b_scale (PriceBadge_geometry "$5.00") = 116 # 100
  /\ b_W (PriceBadge_geometry "$5.00") = 240 * (116 # 100)
  /\ b_font (PriceBadge_geometry "$5.00") = 60 * (116 # 100).
Proof. repeat split; reflexivity. Qed.

Example normalizePrice_examples :
  normalizePrice (Some " $12.5 ") = "$12.50"
  /\ normalizePrice (Some "1.005") = "$1.00"
  /\ normalizePrice (Some "abc") = "$0.00"
  /\ normalizePrice None = "$0.00"
  /\ normalizePrice (Some "-5") = "$-5.00"
  /\ normalizePrice (Some "1000000000000000000000") = "$1e+21"
  /\ normalizePrice (Some "123456789012345678901234") = "$1.2345678901234569e+23".
Proof. vm_compute. repeat split; reflexivity. Qed.

Lemma digit_char_is_digit (d : Z) : (Z.to_nat d <= 9)%nat -> is_digit (digit_char d) = true.
Proof.
  intros H. unfold is_digit, digit_char. cbv zeta.
  rewrite nat_ascii_embedding by lia.
  apply andb_true_intro; split; apply Nat.leb_le; lia.
Qed.

Lemma digits_rev_all_digits (fuel : nat) (n : Z) :
  forallb is_digit (digits_rev fuel n) = true.
Proof.
  revert n; induction fuel as [|f IH]; intros n; [reflexivity|].
  cbn [digits_rev]. destruct (n <? 10)%Z eqn:E.
  - cbn [forallb]. rewrite digit_char_is_digit; [reflexivity|].
    apply Z.ltb_lt in E. lia.
  - cbn [forallb]. rewrite digit_char_is_digit, IH; [reflexivity|].
    pose proof (Z.mod_pos_bound n 10 ltac:(lia)). lia.
Qed.

Lemma digits_of_Z_all_digits (n : Z) : forallb is_digit (digits_of_Z n) = true.
Proof.
  unfold digits_of_Z. apply forallb_forall. intros c Hc.
  apply in_rev in Hc.
  exact (proj1 (forallb_forall _ _) (digits_rev_all_digits _ n) c Hc).
Qed.

Lemma forallb_rev_ascii (f : ascii -> bool) (l : list ascii) :
  forallb f (rev l) = forallb f l.
Proof.
  induction l as [|c l IH]; simpl; [reflexivity|].
  rewrite forallb_app, IH; simpl. rewrite andb_true_r, andb_comm. reflexivity.
Qed.

(** [fixed_point_digits] of a digit string has the shape
    [digits+ . digit digit]. *)
Lemma fixed_point_digits_shape (m : list ascii) :
  forallb is_digit m = true ->
  exists a d1 d2,
    fixed_point_digits m = app a ("."%char :: [d1; d2])
    /\ a <> [] /\ forallb is_digit a = true
    /\ is_digit d1 = true /\ is_digit d2 = true.
Proof.
  intros Hm. unfold fixed_point_digits.
  set (m' := if (length m <=? 2)%nat then app (repeat "0"%char (3 - length m)) m else m).
  assert (Hlen : (3 <= length m')%nat).
  { subst m'. destruct (length m <=? 2)%nat eqn:E.
    - rewrite length_app, repeat_length. apply Nat.leb_le in E. lia.
    - apply Nat.leb_gt in E. lia. }
  assert (Hd : forallb is_digit m' = true).
  { subst m'. destruct (length m <=? 2)%nat; [|exact Hm].
    rewrite forallb_app, Hm, andb_true_r.
    apply forallb_forall. intros c Hc. apply repeat_spec in Hc. subst c. reflexivity. }
  clearbody m'.
  assert (Hsplit : exists a d1 d2, m' = app a [d1; d2] /\ length a <> O).
  { destruct (rev m') as [|x2 [|x1 ra]] eqn:Er.
    - apply (f_equal (@length ascii)) in Er. rewrite length_rev in Er. simpl in Er. lia.
    - apply (f_equal (@length ascii)) in Er. rewrite length_rev in Er. simpl in Er. lia.
    - exists (rev ra), x1, x2. split.
      + rewrite <- (rev_involutive m'), Er. simpl. rewrite <- app_assoc. reflexivity.
      + apply (f_equal (@length ascii)) in Er. rewrite length_rev in Er.
        cbn [length] in Er. rewrite length_rev. lia. }
  destruct Hsplit as (a & d1 & d2 & -> & Ha).
  rewrite forallb_app in Hd. apply andb_prop in Hd as [Hda Hd].
  cbn [forallb] in Hd. rewrite andb_true_r in Hd. apply andb_prop in Hd as [H1 H2].
  rewrite length_app. cbn [length].
  replace (length a + 2 - 2)%nat with (length a) by lia.
  rewrite firstn_app, firstn_all, Nat.sub_diag, skipn_app, skipn_all, Nat.sub_diag.
  cbn [firstn skipn]. rewrite app_nil_r.
  exists a, d1, d2. repeat split; auto.
  intros ->. apply Ha. reflexivity.
Qed.

Lemma digits_dot_two_intro (a : list ascii) (d1 d2 : ascii) :
  a <> [] -> forallb is_digit a = true -> is_digit d1 = true -> is_digit d2 = true ->
  digits_dot_two (app a ("."%char :: [d1; d2])) = true.
Proof.
  intros Ha Hda H1 H2. unfold digits_dot_two.
  rewrite rev_app_distr. simpl.
  rewrite H1, H2, forallb_rev_ascii, Hda.
  destruct (rev a) eqn:E; [apply (f_equal (@rev ascii)) in E; rewrite rev_involutive in E;
                           contradiction|reflexivity].
Qed.

Lemma digits_dot_two_minus (a : list ascii) (d1 d2 : ascii) :
  digits_dot_two ("-"%char :: app a ("."%char :: [d1; d2])) = false.
Proof.
  unfold digits_dot_two.
  replace (rev ("-"%char :: app a ("."%char :: [d1; d2])))
    with (d2 :: d1 :: "."%char :: app (rev a) ["-"%char]).
  2:{ simpl. rewrite rev_app_distr. simpl. reflexivity. }
  rewrite forallb_app.
  replace (forallb is_digit ["-"%char]) with false by reflexivity.
  rewrite !andb_false_r. reflexivity.
Qed.

Lemma Qle_bool_compat_r (a x y : Q) : x == y -> Qle_bool a x = Qle_bool a y.
Proof.
  intros Hxy. destruct (Qle_bool a x) eqn:E1, (Qle_bool a y) eqn:E2; try reflexivity.
  - apply Qle_bool_iff in E1. rewrite Hxy in E1. apply Qle_bool_iff in E1. congruence.
  - apply Qle_bool_iff in E2. rewrite <- Hxy in E2. apply Qle_bool_iff in E2. congruence.
Qed.

Lemma Qltb_true (x y : Q) : Qltb x y = true -> x < y.
Proof.
  unfold Qltb. intros H. apply negb_true_iff in H.
  apply Qnot_le_lt. intros Hle. apply Qle_bool_iff in Hle. congruence.
Qed.

Lemma Qltb_false (x y : Q) : Qltb x y = false -> y <= x.
Proof.
  unfold Qltb. intros H. apply negb_false_iff in H. apply Qle_bool_iff. exact H.
Qed.

(** In the fixed range, [toFixed(2)] prints an optional minus sign and the
    digits of the rounded value with two decimals. *)
Lemma toFixed2_fixed_shape (x0 : Q) :
  Qltb (Qabs x0) (pow10Q 21) = true ->
  exists a d1 d2,
    toFixed2 (Finite x0)
    = (if Qltb x0 0 then "-" else "") ++ string_of_list_ascii (app a ("."%char :: [d1; d2]))
    /\ a <> [] /\ forallb is_digit a = true /\ is_digit d1 = true /\ is_digit d2 = true.
Proof.
  intros Hr. unfold Qltb in Hr. apply negb_true_iff in Hr.
  unfold toFixed2.
  assert (Hg : Qle_bool (pow10Q 21) (if Qltb x0 0 then - x0 else x0) = false).
  { rewrite <- Hr. apply Qle_bool_compat_r. destruct (Qltb x0 0) eqn:Hn.
    - apply Qltb_true in Hn. rewrite Qabs_neg; [reflexivity|]. apply Qlt_le_weak; exact Hn.
    - apply Qltb_false in Hn. rewrite Qabs_pos; [reflexivity|exact Hn]. }
  rewrite Hg.
  destruct (fixed_point_digits_shape _ (digits_of_Z_all_digits
              (Qfloor_ ((if Qltb x0 0 then - x0 else x0) * 100 + (1 # 2)))))
    as (a & d1 & d2 & Heq & Ha & Hda & H1 & H2).
  exists a, d1, d2. rewrite Heq. repeat split; assumption.
Qed.

Example normalizePrice_value_examples :
  in_fixed_range (normalizePrice_value (Some "$12.5")) = true
  /\ is_negative (normalizePrice_value (Some "-5")) = true.
Proof. vm_compute. split; reflexivity. Qed.

(** C8 (as stated, refuted): the input "-5" normalizes to "$-5.00",
    which does not match [/^\$\d+\.\d{2}$/]. *)
Lemma normalizePrice_negative_counterexample :
  normalizePrice (Some "-5") = "$-5.00" /\ price_pattern (normalizePrice (Some "-5")) = false.
Proof. vm_compute. split; reflexivity. Qed.

(** C8 (amended): whenever the parsed number is NaN or has magnitude below
    10^21, [normalizePrice] returns a string matching
    [/^\$-?\d+\.\d{2}$/]; it matches [/^\$\d+\.\d{2}$/] exactly when the
    parsed number is not negative. *)
Theorem normalizePrice_pattern_in_range :
  forall p : option string,
    in_fixed_range (normalizePrice_value p) = true ->
    price_pattern_signed (normalizePrice p) = true
    /\ price_pattern (normalizePrice p) = negb (is_negative (normalizePrice_value p)).
Proof.
  intros p H. unfold normalizePrice.
  destruct (normalizePrice_value p) as [x0| | |]; cbn [in_fixed_range] in H;
    try discriminate.
  - destruct (toFixed2_fixed_shape x0 H) as (a & d1 & d2 & Heq & Ha & Hda & H1 & H2).
    rewrite Heq. cbn [is_negative].
    unfold price_pattern_signed, price_pattern.
    destruct (Qltb x0 0).
    + cbn [String.append list_ascii_of_string].
      rewrite list_ascii_of_string_of_list_ascii.
      cbn [nat_of_ascii N_of_ascii N_of_digits Nat.eqb andb].
      rewrite digits_dot_two_intro, digits_dot_two_minus by assumption.
      split; reflexivity.
    + cbn [String.append list_ascii_of_string].
      rewrite list_ascii_of_string_of_list_ascii.
      destruct a as [|c a']; [contradiction|].
      cbn [app].
      replace (nat_of_ascii c =? 45)%nat with false.
      2:{ cbn [forallb] in Hda. apply andb_prop in Hda as [Hc _].
          unfold is_digit in Hc. apply andb_prop in Hc as [Hc1 _].
          apply Nat.leb_le in Hc1. symmetry. apply Nat.eqb_neq. lia. }
      pose proof (digits_dot_two_intro (c :: a') d1 d2 ltac:(discriminate) Hda H1 H2) as Hd.
      cbn [app] in Hd. rewrite Hd.
      split; reflexivity.
  - split; reflexivity.
Qed.

(** Witness for [normalizePrice_pattern_in_range]: "$12.5". *)
Lemma normalizePrice_pattern_in_range_witness :
  in_fixed_range (normalizePrice_value (Some "$12.5")) = true
  /\ price_pattern_signed (normalizePrice (Some "$12.5")) = true
  /\ price_pattern (normalizePrice (Some "$12.5"))
     = negb (is_negative (normalizePrice_value (Some "$12.5"))).
Proof.
  assert (H : in_fixed_range (normalizePrice_value (Some "$12.5")) = true) by (vm_compute; reflexivity).
  split; [exact H|].
  apply (normalizePrice_pattern_in_range (Some "$12.5")). exact H.
Defined.

Example drive_examples :
  extractDriveId "https://drive.google.com/file/d/1AbCdEfGhIjKlMnOpQrStUvWxYz012345/view?usp=sharing"
    = Some "1AbCdEfGhIjKlMnOpQrStUvWxYz012345"
  /\ extractDriveId "https://drive.google.com/open?id=XYZ" = Some "XYZ"
  /\ extractDriveId "1AbCdEfGhIjKlMnOpQrStUvWxYz012345" = None
  /\ extractDriveId "https://example.com/a.png" = None.
Proof. vm_compute. repeat split; reflexivity. Qed.

Lemma skipn_nth_cons {A} (l : list A) (i : nat) (d : A) :
  (i < length l)%nat -> skipn i l = nth i l d :: skipn (S i) l.
Proof.
  revert i; induction l as [|x l IH]; intros i Hi; simpl in Hi; [lia|].
  destruct i as [|i]; [reflexivity|]. simpl. apply IH. lia.
Qed.

(** The loader of [NetworkImage] tries the candidates in order, stops at
    the first one that loads and renders nothing when all of them fail;
    it is a total function, no failure escapes it. *)
Lemma NetworkImage_run_find (load : string -> bool) (cands : list string) :
  Forall (fun c => c <> "") cands ->
  forall fuel i, (i < length cands)%nat -> (length cands <= i + 1 + fuel)%nat ->
  NetworkImage_run fuel load cands i = find load (skipn i cands).
Proof.
  intros Hne fuel. rewrite Forall_forall in Hne.
  induction fuel as [|f IH]; intros i Hi Hf;
    rewrite (skipn_nth_cons cands i "" Hi); cbn [find NetworkImage_run];
    unfold useImage_status;
    (assert (Hc : nth i cands "" <> "") by
        (apply Hne, nth_In, Hi));
    (destruct (String.eqb (nth i cands "") "") eqn:E;
       [apply String.eqb_eq in E; contradiction|]);
    destruct (load (nth i cands "")); try reflexivity.
  - rewrite skipn_all2 by lia. reflexivity.
  - destruct (i <? length cands - 1)%nat eqn:Hlt.
    + apply Nat.ltb_lt in Hlt. apply IH; lia.
    + apply Nat.ltb_ge in Hlt. rewrite skipn_all2 by lia. reflexivity.
Qed.

Lemma NetworkImage_image_find (load : string -> bool) (cands : list string) :
  Forall (fun c => c <> "") cands ->
  NetworkImage_image load cands = find load cands.
Proof.
  intros Hne. unfold NetworkImage_image. destruct cands as [|c rest] eqn:Ec.
  - reflexivity.
  - rewrite <- Ec in *. rewrite NetworkImage_run_find by (auto; subst; simpl; lia).
    reflexivity.
Qed.

(** C5 (code bug), evaluated at the failing inputs: a bare Drive ID is
    not recognized ([new URL] throws on it before the bare-ID test and the
    catch answers [null]), so [driveImageCandidates] returns it alone; a
    Drive share URL does get the four fallbacks from
    [driveImageCandidates], but [NetworkImage] never asks for them since
    the resolved URL starts with "http". *)
Theorem drive_candidates_failing_inputs :
  let bare := "1AbCdEfGhIjKlMnOpQrStUvWxYz012345" in
  let share := "https://drive.google.com/file/d/1AbCdEfGhIjKlMnOpQrStUvWxYz012345/view" in
  bare_id_like bare = true
  /\ driveImageCandidates bare = [bare]
  /\ driveImageCandidates share
     = [ "https://drive.google.com/uc?export=download&id=1AbCdEfGhIjKlMnOpQrStUvWxYz012345";
         "https://drive.google.com/uc?export=view&id=1AbCdEfGhIjKlMnOpQrStUvWxYz012345";
         "https://drive.google.com/thumbnail?id=1AbCdEfGhIjKlMnOpQrStUvWxYz012345&sz=w2000";
         "https://lh3.googleusercontent.com/d/1AbCdEfGhIjKlMnOpQrStUvWxYz012345=s2048" ]
  /\ (forall resolveToken : string -> option string,
        NetworkImage_candidates (useResolvedUrl resolveToken share) = [share]
        /\ NetworkImage_candidates (useResolvedUrl resolveToken bare) = [bare]).
Proof.
  intros bare share.
  split; [vm_compute; reflexivity|].
  split; [vm_compute; reflexivity|].
  split; [vm_compute; reflexivity|].
  intros resolveToken. split; vm_compute; reflexivity.
Qed.

Open Scope nat_scope.

Lemma js_splice_lengths {A} (l : list A) (s : Z) (dc : nat) (it : list A) :
  length (fst (js_splice l s dc it)) + length (snd (js_splice l s dc it)) = length l + length it
  /\ length (snd (js_splice l s dc it)) <= dc.
Proof.
  unfold js_splice. cbv zeta. cbn [fst snd].
  match goal with |- context [firstn (Z.to_nat ?e) l] =>
    assert (Ha : Z.to_nat e <= length l) by (destruct (s <? 0)%Z eqn:Es; [apply Z.ltb_lt in Es|]; lia);
    generalize dependent (Z.to_nat e); intros a Ha end.
  rewrite !length_app, !length_firstn, length_skipn, length_skipn. lia.
Qed.

Lemma js_splice_remove_one {A} (l : list A) (i : nat) :
  i < length l -> length (snd (js_splice l (Z.of_nat i) 1 [])) = 1.
Proof.
  intros Hi. unfold js_splice. cbv zeta. cbn [snd].
  rewrite length_firstn, length_skipn.
  destruct (Z.of_nat i <? 0)%Z eqn:E; [lia|].
  lia.
Qed.

Lemma js_set_length {A} (h : A) (l : list A) (i : nat) (x : A) :
  i < length l -> length (js_set h l i x) = length l.
Proof.
  intros Hi. unfold js_set. apply Nat.ltb_lt in Hi as Hb. rewrite Hb.
  rewrite length_app. cbn [length]. rewrite length_firstn, length_skipn. lia.
Qed.

Lemma arrayMove_length {A} (h : A) (l : list A) (from : nat) (to : Z) :
  from < length l -> length (arrayMove h l (Z.of_nat from) to) = length l.
Proof.
  intros Hf. unfold arrayMove.
  pose proof (js_splice_lengths l (Z.of_nat from) 1 []) as [H1 _].
  pose proof (js_splice_remove_one l from Hf) as H2.
  destruct (js_splice l (Z.of_nat from) 1 []) as [l1 removed]. cbn [fst snd] in *.
  match goal with |- context [js_splice l1 ?st 0 ?it] =>
    pose proof (js_splice_lengths l1 st 0 it) as [H3 H4] end.
  cbn [length] in *. lia.
Qed.

Lemma findIndex_id_valid (items : list FeaturedItem) (a : nat) :
  a < length items -> findIndex_id items a = Z.of_nat a.
Proof. intros H. unfold findIndex_id. apply Nat.ltb_lt in H. rewrite H. reflexivity. Qed.

Lemma apply_op_cap (items : list FeaturedItem) (op : FeaturedOp) :
  length items <= 9 -> enabled items op = true -> length (apply_op items op) <= 9.
Proof.
  intros Hl He. destruct op as [|i k v|i|a [j|]|f]; cbn [enabled apply_op] in *.
  - rewrite length_app. apply Nat.ltb_lt in He. cbn [length]. lia.
  - apply Nat.ltb_lt in He. rewrite js_set_length by exact He. exact Hl.
  - apply Nat.ltb_lt in He.
    pose proof (js_splice_lengths items (Z.of_nat i) 1 []) as [H1 _].
    pose proof (js_splice_remove_one items i He) as H2. cbn [length] in H1. lia.
  - apply andb_prop in He as [Ha Hj]. apply Nat.ltb_lt in Ha.
    destruct (a =? j); [exact Hl|].
    rewrite findIndex_id_valid by exact Ha. rewrite arrayMove_length by exact Ha. exact Hl.
  - exact Hl.
  - rewrite length_map. exact Hl.
Qed.

Lemma featured_forEach_out (rs : list JsonRow) (i : nat) (out : list FeaturedItem) (d : nat)
  (iss : list WorkbookIssue) :
  fst (fst (featured_forEach rs i out d iss)) = app out (featured_valid_items rs).
Proof.
  revert i out d iss. induction rs as [|r rs IH]; intros i out d iss.
  - cbn. rewrite app_nil_r. reflexivity.
  - cbn [featured_forEach]. unfold featured_valid_items. cbn [filter].
    destruct (String.eqb (cellStr r "Product Name") "") eqn:E; cbn [negb map].
    + rewrite IH. reflexivity.
    + rewrite IH. rewrite <- app_assoc. reflexivity.
Qed.

Lemma parseFeaturedRows_items (raw : option (list JsonRow)) (iss : list WorkbookIssue) :
  fst (parseFeaturedRows raw iss)
  = match raw with
    | Some rs => if haveColumns rs COLS_featured then firstn 9 (featured_valid_items rs) else []
    | None => []
    end.
Proof.
  destruct raw as [rs|]; [|reflexivity].
  unfold parseFeaturedRows.
  destruct (haveColumns rs COLS_featured); cbn [negb]; [|reflexivity].
  pose proof (featured_forEach_out rs 0 [] 0 iss) as H.
  destruct (featured_forEach rs 0 [] 0 iss) as [[out dropped] iss']. cbn in H. subst out.
  reflexivity.
Qed.

Example parseFeaturedRows_ten_rows :
  length (fst (parseFeaturedRows
    (Some (map sample_featured_row ["a"; "b"; "c"; "d"; "e"; "f"; "g"; "h"; "i"; "j"])) [])) = 9.
Proof. vm_compute. reflexivity. Qed.

Example arrayMove_example :
  arrayMove 0 [10; 11; 12; 13] 0%Z 2%Z = [11; 12; 10; 13]
  /\ arrayMove 0 [10; 11; 12; 13] 3%Z 1%Z = [10; 13; 11; 12].
Proof. split; reflexivity. Qed.

(** C9: the featured list never exceeds 9 entries: every operation the
    table enables (add row, field update, remove, drag-reorder, and the
    image auto-mapping) keeps a list of length at most 9 at most 9, so does
    any sequence of them; at length 9 the "+ Add row" control is not
    rendered; and the import keeps only the first 9 valid featured rows. *)
Theorem featured_cap_nine :
  (forall items op, length items <= 9 -> enabled items op = true ->
     length (apply_op items op) <= 9)
  /\ (forall items items', length items <= 9 ->
        clos_refl_trans_1n _ featured_step items items' -> length items' <= 9)
  /\ (forall items, length items = 9 -> enabled items AddRow = false)
  /\ (forall raw iss, length (fst (parseFeaturedRows raw iss)) <= 9
        /\ forall rs, raw = Some rs -> haveColumns rs COLS_featured = true ->
           fst (parseFeaturedRows raw iss) = firstn 9 (featured_valid_items rs)).
Proof.
  split; [exact apply_op_cap|].
  split.
  { intros items items' Hl Hs. induction Hs as [x|x y z Hxy Hyz IH]; [exact Hl|].
    apply IH. destruct Hxy as (op & He & ->). apply apply_op_cap; assumption. }
  split.
  { intros items H. cbn [enabled]. rewrite H. reflexivity. }
  intros raw iss. rewrite parseFeaturedRows_items. split.
  - destruct raw as [rs|]; [|cbn; lia].
    destruct (haveColumns rs COLS_featured); [|cbn; lia].
    rewrite length_firstn. lia.
  - intros rs -> Hc. rewrite Hc. reflexivity.
Qed.

Lemma featured_cap_nine_witness :
  enabled (repeat new_featured_row 9) AddRow = false
  /\ length (apply_op (repeat new_featured_row 9) (RemoveRow 3)) <= 9
  /\ length (apply_op (repeat new_featured_row 8) AddRow) <= 9.
Proof.
  destruct featured_cap_nine as (H1 & _ & H3 & _).
  split; [apply H3; reflexivity|].
  split; apply H1; (rewrite repeat_length; lia) || reflexivity.
Defined.

(** C6: when the uploaded workbook's parse result has an issue of level
    'error', [onUpload] leaves the featured, grocery, frozen, meat and
    produce lists (and the dates and tab) as they were and sets the single
    upload error message. *)
Theorem onUpload_blocking_error_keeps_data :
  forall (buffer : Type) (XLSX_read : buffer -> Result Workbook) (st : AppState)
         (buf : buffer) (r : ParseResult),
    parseWorkbookDetailed buffer XLSX_read buf = Ok r ->
    existsb is_error (issues r) = true ->
    let st' := onUpload buffer XLSX_read st (Ok buf) in
    featured st' = featured st /\ grocery st' = grocery st /\ frozen st' = frozen st
    /\ meat st' = meat st /\ produce st' = produce st
    /\ dateFrom st' = dateFrom st /\ dateTo st' = dateTo st /\ tab st' = tab st
    /\ uploadError st' = Some upload_error_message.
Proof.
  intros buffer XLSX_read st buf r Hparse Herr st'.
  subst st'. unfold onUpload, parseWorkbook. cbn [bind]. rewrite Hparse. cbn [bind].
  rewrite Herr. cbn. repeat split; reflexivity.
Qed.

Lemma onUpload_blocking_error_keeps_data_witness :
  parseWorkbookDetailed unit empty_workbook_reader tt = Ok missing_all_sheets_result
  /\ existsb is_error (issues missing_all_sheets_result) = true
  /\ featured (onUpload unit empty_workbook_reader sample_state (Ok tt)) = [new_featured_row]
  /\ uploadError (onUpload unit empty_workbook_reader sample_state (Ok tt))
     = Some upload_error_message.
Proof.
  assert (Hp : parseWorkbookDetailed unit empty_workbook_reader tt = Ok missing_all_sheets_result)
    by (vm_compute; reflexivity).
  assert (He : existsb is_error (issues missing_all_sheets_result) = true) by reflexivity.
  destruct (onUpload_blocking_error_keeps_data unit empty_workbook_reader sample_state tt
              missing_all_sheets_result Hp He) as (Hf & _ & _ & _ & _ & _ & _ & _ & Hu).
  split; [exact Hp|]. split; [exact He|]. split; [exact Hf|exact Hu].
Defined.

(** C10: [parseWorkbookDetailed] returns a result for every buffer and
    never throws; when [XLSX.read] throws, the result has five empty lists
    and an issue of level 'error' with code 'read_failed'. *)
Theorem parseWorkbookDetailed_total_read_failed :
  forall (buffer : Type) (XLSX_read : buffer -> Result Workbook) (buf : buffer),
    exists r, parseWorkbookDetailed buffer XLSX_read buf = Ok r
      /\ (forall e, XLSX_read buf = Throw e ->
            r = read_failed_result
            /\ data r = mkData [] [] [] [] []
            /\ Exists (fun i => level i = LError /\ icode i = "read_failed") (issues r)).
Proof.
  intros buffer XLSX_read buf. unfold parseWorkbookDetailed.
  destruct (XLSX_read buf) as [wb|e] eqn:Er.
  - cbv zeta.
    destruct (parseFeaturedRows _ _) as [featured0 issues3].
    destruct (parseSimpleRows _ "Grocery" _) as [grocery0 issues4].
    destruct (parseSimpleRows _ "Frozen Foods" _) as [frozen0 issues5].
    destruct (parseSimpleRows _ "Meat" _) as [meat0 issues6].
    destruct (parseSimpleRows _ "Produce" _) as [produce0 issues7].
    eexists. split; [reflexivity|]. intros e He. discriminate.
  - exists read_failed_result. split; [reflexivity|].
    intros e' _. split; [reflexivity|]. split; [reflexivity|].
    apply Exists_cons_hd. split; reflexivity.
Qed.

Lemma parseWorkbookDetailed_total_read_failed_witness :
  parseWorkbookDetailed unit unreadable_reader tt = Ok read_failed_result.
Proof.
  destruct (parseWorkbookDetailed_total_read_failed unit unreadable_reader tt) as (r & Hr & Hf).
  destruct (Hf "Unsupported file" eq_refl) as (-> & _ & _). exact Hr.
Defined.

Open Scope Q_scope.

Lemma Qfloor__Qfloor (x : Q) : Qfloor_ x = Qfloor x.
Proof. destruct x; reflexivity. Qed.

Lemma Qfloor__spec (x : Q) (n : Z) :
  Qfloor_ x = n <-> inject_Z n <= x /\ x < inject_Z n + 1.
Proof.
  rewrite Qfloor__Qfloor. split.
  - intros <-. split; [apply Qfloor_le|].
    change 1 with (inject_Z 1). rewrite <- inject_Z_plus. apply Qlt_floor.
  - intros [H1 H2].
    pose proof (Qfloor_le x) as H3. pose proof (Qlt_floor x) as H4.
    assert (Ha : (Qfloor x < n + 1)%Z).
    { rewrite Zlt_Qlt, inject_Z_plus. apply (Qle_lt_trans _ x); assumption. }
    assert (Hb : (n < Qfloor x + 1)%Z).
    { rewrite Zlt_Qlt. apply (Qle_lt_trans _ x); assumption. }
    lia.
Qed.

Example downloadCurrent_dims_examples :
  downloadCurrent_dims 1 false 1000 = (5100%Z, 6600%Z)
  /\ downloadCurrent_dims (1 # 2) false 1000 = (2550%Z, 3300%Z)
  /\ downloadCurrent_dims 1 true 1299 = (2550%Z, 3300%Z)
  /\ downloadAll_dims 1 false 1000 = (7650%Z, 9900%Z).
Proof. repeat split; reflexivity. Qed.

(** C7 (as stated, refuted): with fit-width off, zoom 1 and zoom 0.5 give
    exports of 5100 x 6600 and 2550 x 3300 pixels. *)
Lemma downloadCurrent_zoom_dependent :
  downloadCurrent_dims 1 false 1000 = (5100%Z, 6600%Z)
  /\ downloadCurrent_dims (1 # 2) false 1000 = (2550%Z, 3300%Z)
  /\ downloadCurrent_dims 1 false 1000 <> downloadCurrent_dims (1 # 2) false 1000.
Proof. split; [reflexivity|]. split; [reflexivity|]. vm_compute. congruence. Qed.

(** C7 (amended): [downloadCurrent] exports [floor(2550 * s * 2)] by
    [floor(3300 * s * 2)] pixels, where [s] is the on-screen scale (the zoom,
    or [max(200, clientWidth - 24) / 2550] with fit-width on); the export is
    the logical size times 2 (5100 x 6600) only when
    [1 <= s < 6601/6600]. *)
Theorem downloadCurrent_dims_scale :
  forall (zoom : Q) (fitOn : bool) (clientWidth : Q),
    let s := if fitOn then Qmax 200 (clientWidth - 24) / 2550 else zoom in
    downloadCurrent_dims zoom fitOn clientWidth
      = (Qfloor_ (2550 * s * 2), Qfloor_ (3300 * s * 2))
    /\ (downloadCurrent_dims zoom fitOn clientWidth = (5100%Z, 6600%Z)
        <-> 1 <= s /\ s < 6601 # 6600).
Proof.
  intros zoom fitOn clientWidth s.
  assert (Hd : downloadCurrent_dims zoom fitOn clientWidth
               = (Qfloor_ (2550 * s * 2), Qfloor_ (3300 * s * 2))) by reflexivity.
  split; [exact Hd|]. rewrite Hd. clearbody s.
  split.
  - intros Heq. injection Heq as Hw Hh.
    apply Qfloor__spec in Hw as [Hw1 Hw2]. apply Qfloor__spec in Hh as [Hh1 Hh2].
    destruct s as [sn sd]. qcrunch.
  - intros [H1 H2]. f_equal; apply Qfloor__spec;
      destruct s as [sn sd]; split; qcrunch.
Qed.

(* ------------------------------------------------------------------ *)
(** * Further properties of the code *)

Open Scope nat_scope.

Lemma substring_0_length (s : string) : substring 0 (String.length s) s = s.
Proof. induction s as [|c s IH]; cbn; [reflexivity|rewrite IH; reflexivity]. Qed.

Lemma str_slice_app (p r : string) : str_slice (String.length p) (p ++ r) = r.
Proof.
  unfold str_slice. induction p as [|c p IH]; cbn.
  - rewrite Nat.sub_0_r. apply substring_0_length.
  - exact IH.
Qed.

Lemma prefix_app (p r : string) : String.prefix p (p ++ r) = true.
Proof.
  induction p as [|c p IH]; cbn; [destruct r; reflexivity|].
  destruct (ascii_dec c c) as [_|n]; [exact IH|congruence].
Qed.

Lemma prefix_split (p s : string) : String.prefix p s = true -> s = p ++ str_slice (String.length p) s.
Proof.
  revert s. induction p as [|c p IH]; intros s H.
  - cbn. unfold str_slice. rewrite Nat.sub_0_r, substring_0_length. reflexivity.
  - destruct s as [|c' s]; cbn in H; [discriminate|].
    destruct (ascii_dec c c') as [<-|]; [|discriminate].
    cbn. f_equal. rewrite (IH s H) at 1. unfold str_slice. cbn. reflexivity.
Qed.

(** X1: [tokenToId] undoes [tokenFor]: for every id, bundled ([asset:...])
    or uploaded, [tokenToId (tokenFor id) = id]. *)
Theorem tokenToId_tokenFor (id : string) : tokenToId (tokenFor id) = id.
Proof.
  unfold tokenFor. destruct (String.prefix "asset:" id) eqn:E.
  - pose proof (prefix_split _ _ E) as Hs.
    unfold tokenToId.
    rewrite prefix_app.
    pose proof (str_slice_app "asset://" (str_slice 6 id)) as Hx.
    cbn [String.length] in Hx. rewrite Hx.
    rewrite Hs at 2. reflexivity.
  - unfold tokenToId.
    replace (String.prefix "asset://" ("media://" ++ id)) with false by reflexivity.
    rewrite prefix_app.
    pose proof (str_slice_app "media://" id) as Hx. cbn [String.length] in Hx. exact Hx.
Qed.

(** X2: [tokenFor] undoes [tokenToId] on the tokens [tokenFor] produces: an
    [asset://] token, or a [media://] token whose id does not start with
    [asset:]. *)
Theorem tokenFor_tokenToId (t : string)
  (Ht : String.prefix "asset://" t = true
        \/ exists id, t = "media://" ++ id /\ String.prefix "asset:" id = false) :
  tokenFor (tokenToId t) = t.
Proof.
  destruct Ht as [Ha | [id [-> Hid]]].
  - pose proof (prefix_split _ _ Ha) as Hs. cbn [String.length] in Hs.
    unfold tokenToId. rewrite Ha. unfold tokenFor. rewrite prefix_app.
    pose proof (str_slice_app "asset:" (str_slice 8 t)) as Hx. cbn [String.length] in Hx.
    rewrite Hx. symmetry. exact Hs.
  - unfold tokenToId.
    replace (String.prefix "asset://" ("media://" ++ id)) with false by reflexivity.
    rewrite prefix_app.
    pose proof (str_slice_app "media://" id) as Hx. cbn [String.length] in Hx. rewrite Hx.
    unfold tokenFor. rewrite Hid. reflexivity.
Qed.

Lemma tokenFor_tokenToId_witness :
  tokenFor (tokenToId "asset://logo.png") = "asset://logo.png"
  /\ tokenFor (tokenToId "media://m1") = "media://m1".
Proof.
  split; apply tokenFor_tokenToId; [left; reflexivity|right; exists "m1"; split; reflexivity].
Defined.

(** X3: a [media://] token whose id starts with [asset:] is not kept: passing
    it through [tokenToId] and [tokenFor] gives the [asset://] token of the
    rest of the id. *)
Theorem media_token_of_asset_id (rest : string) :
  tokenFor (tokenToId ("media://asset:" ++ rest)) = "asset://" ++ rest.
Proof.
  change ("media://asset:" ++ rest) with ("media://" ++ ("asset:" ++ rest)).
  unfold tokenToId.
  replace (String.prefix "asset://" ("media://" ++ ("asset:" ++ rest))) with false by reflexivity.
  rewrite prefix_app.
  pose proof (str_slice_app "media://" ("asset:" ++ rest)) as Hx. cbn [String.length] in Hx.
  rewrite Hx.
  unfold tokenFor. rewrite prefix_app.
  pose proof (str_slice_app "asset:" rest) as Hy. cbn [String.length] in Hy.
  rewrite Hy. reflexivity.
Qed.

Lemma find_unique_id (l : list MediaItem) (it : MediaItem) :
  NoDup (map m_id l) -> In it l -> find (fun i => String.eqb (m_id i) (m_id it)) l = Some it.
Proof.
  induction l as [|x t IH]; intros Hn Hi; [destruct Hi|].
  cbn in Hn. inversion Hn as [|? ? Hx Hn']; subst.
  cbn. destruct (String.eqb (m_id x) (m_id it)) eqn:E.
  - apply String.eqb_eq in E. destruct Hi as [->|Hi]; [reflexivity|].
    exfalso. apply Hx. rewrite E. apply in_map. exact Hi.
  - destruct Hi as [->|Hi]; [rewrite String.eqb_refl in E; discriminate|].
    apply IH; assumption.
Qed.

(** X4: when the media ids are distinct, the display name of the token of an
    uploaded item (id not starting with [asset:]) is that item's name. *)
Theorem displayNameFor_media (items : list MediaItem) (it : MediaItem)
  (Hnd : NoDup (map m_id items)) (Hin : In it items)
  (Hmedia : String.prefix "asset:" (m_id it) = false) :
  displayNameFor items (tokenFor (m_id it)) = m_name it.
Proof.
  unfold tokenFor. rewrite Hmedia. unfold displayNameFor.
  replace (String.eqb ("media://" ++ m_id it) "") with false by reflexivity.
  replace (String.prefix "asset://" ("media://" ++ m_id it)) with false by reflexivity.
  rewrite prefix_app.
  pose proof (str_slice_app "media://" (m_id it)) as Hx. cbn [String.length] in Hx. rewrite Hx.
  unfold idToName_get. rewrite find_unique_id; [reflexivity| |].
  - rewrite map_rev. apply NoDup_rev. exact Hnd.
  - apply in_rev. rewrite rev_involutive. exact Hin.
Qed.

Lemma displayNameFor_media_witness :
  displayNameFor sample_media (tokenFor "m1") = "Apples".
Proof.
  apply (displayNameFor_media sample_media (mkMedia "m1" "Apples" "image/png" 1024 0)).
  - cbn. constructor; [intros [H|[]]; discriminate|]. constructor; [intros []|constructor].
  - left. reflexivity.
  - reflexivity.
Defined.

(** X5: the display name of the token of a bundled asset listed by
    [listBundledAssets] is its file name, whatever the uploaded items are. *)
Theorem displayNameFor_bundled (items : list MediaItem) (paths : list string) (it : MediaItem)
  (Hin : In it (listBundledAssets paths)) :
  displayNameFor items (tokenFor (m_id it)) = m_name it.
Proof.
  unfold listBundledAssets in Hin. apply in_map_iff in Hin as [path [<- _]].
  cbn [m_id m_name]. set (nm := assetNameFromPath path).
  unfold tokenFor. rewrite prefix_app.
  pose proof (str_slice_app "asset:" nm) as Hx. cbn [String.length] in Hx. rewrite Hx.
  unfold displayNameFor.
  replace (String.eqb ("asset://" ++ nm) "") with false by reflexivity.
  rewrite prefix_app.
  pose proof (str_slice_app "asset://" nm) as Hy. cbn [String.length] in Hy. exact Hy.
Qed.

Lemma displayNameFor_bundled_witness :
  displayNameFor [] (tokenFor "asset:logo.png") = "logo.png".
Proof.
  apply (displayNameFor_bundled [] ["src/assets/logo.png"]
           (mkMedia "asset:logo.png" "logo.png" "asset/image" 0 0)).
  left. reflexivity.
Defined.

Lemma In_firstn {A} (n : nat) (l : list A) (x : A) : In x (firstn n l) -> In x l.
Proof. intros H. rewrite <- (firstn_skipn n l). apply in_or_app. left. exact H. Qed.

(** X6: the autocomplete list has at most 20 entries; each is an item whose
    lowercased name contains the lowercased query (or the query is empty);
    it is a prefix of all matching items in their order, and all of them
    when at most 20 match. *)
Theorem media_filtered_spec (toLowerCase : string -> string) (items : list MediaItem) (q : string) :
  let m := fun i => String.eqb (toLowerCase q) "" || includes (toLowerCase (m_name i)) (toLowerCase q) in
  (length (media_filtered toLowerCase items q) <= 20)%nat
  /\ (forall it, In it (media_filtered toLowerCase items q) -> In it items /\ m it = true)
  /\ (exists rest, filter m items = app (media_filtered toLowerCase items q) rest)
  /\ ((length (filter m items) <= 20)%nat -> media_filtered toLowerCase items q = filter m items).
Proof.
  intros m.
  assert (Hf : media_filtered toLowerCase items q = firstn 20 (filter m items)).
  { unfold media_filtered, m. destruct (String.eqb (toLowerCase q) "") eqn:E; cbn [orb].
    - f_equal. induction items as [|x t IH]; cbn; [reflexivity|]. rewrite <- IH. reflexivity.
    - f_equal. }
  rewrite Hf. split; [|split; [|split]].
  - rewrite length_firstn. lia.
  - intros it Hi. apply In_firstn in Hi. apply filter_In in Hi. tauto.
  - exists (skipn 20 (filter m items)). symmetry. apply firstn_skipn.
  - intros Hl. apply firstn_all2. exact Hl.
Qed.

(** X7: on a non-empty list, a key press keeps the active index between -1
    and the last position, and so does the reset effect that follows. *)
Theorem onKeyDown_active_in_range (f : list MediaItem) (st : AcState) (k : AcKey)
  (Hn : (0 < length f)%nat) (Hinv : ac_in_range f st) :
  ac_in_range f (fst (onKeyDown f st k))
  /\ ac_in_range f (ac_reset_effect f (fst (onKeyDown f st k))).
Proof.
  assert (Hr : forall s, ac_in_range f (ac_reset_effect f s)).
  { intros [o q a]. unfold ac_in_range, ac_reset_effect. cbn [ac_open ac_q ac_active].
    destruct o; cbn [ac_active]; [|lia].
    destruct (Z.of_nat (length f) =? 0)%Z eqn:E; [lia|]. apply Z.eqb_neq in E. lia. }
  split; [|apply Hr].
  destruct st as [o q a]. unfold ac_in_range in *. cbn [ac_active] in Hinv.
  assert (Hz : (Z.of_nat (length f) =? 0)%Z = false) by (apply Z.eqb_neq; lia).
  destruct k, o; cbn [onKeyDown negb andb fst ac_active]; rewrite ?Hz; cbn [fst ac_active]; try lia.
  - destruct (a <? 0)%Z eqn:E; [apply Z.ltb_lt in E|apply Z.ltb_ge in E]; lia.
  - destruct (a <? 0)%Z eqn:E; [apply Z.ltb_lt in E|apply Z.ltb_ge in E]; lia.
  - destruct (0 <=? a)%Z; [|cbn; lia].
    unfold selectIndex. destruct (if (a <? 0)%Z then None else nth_error f (Z.to_nat a));
      cbn; lia.
Qed.

Lemma onKeyDown_active_in_range_witness :
  ac_in_range sample_media (fst (onKeyDown sample_media (mkAc true "" 1%Z) KArrowDown))
  /\ ac_in_range sample_media
       (ac_reset_effect sample_media (fst (onKeyDown sample_media (mkAc true "" 1%Z) KArrowDown))).
Proof.
  apply onKeyDown_active_in_range; [cbn; lia|unfold ac_in_range; cbn; lia].
Defined.

(** X8: a key press picks a token only for Enter on an open list with a
    non-negative active index that selects an item; the token is that item's
    token and the list closes with an empty query and index -1. *)
Theorem onKeyDown_pick (f : list MediaItem) (st : AcState) (k : AcKey) (tok : string)
  (Hpick : snd (onKeyDown f st k) = Some tok) :
  k = KEnter /\ ac_open st = true /\ (0 <= ac_active st)%Z
  /\ (exists it, nth_error f (Z.to_nat (ac_active st)) = Some it /\ tok = tokenFor (m_id it))
  /\ fst (onKeyDown f st k) = mkAc false "" (-1).
Proof.
  destruct st as [o q a]. cbn [ac_open ac_active].
  destruct k, o; cbn [onKeyDown negb andb fst snd] in *;
    try (destruct (Z.of_nat (length f) =? 0)%Z); try discriminate.
  all: destruct (0 <=? a)%Z eqn:E; [|discriminate Hpick].
  all: apply Z.leb_le in E; unfold selectIndex in *.
  all: destruct (a <? 0)%Z eqn:E2; [apply Z.ltb_lt in E2; lia|].
  all: destruct (nth_error f (Z.to_nat a)) as [it|] eqn:En; cbn in Hpick; [|discriminate].
  all: injection Hpick as <-; repeat split; try assumption; eauto.
Qed.

Lemma onKeyDown_pick_witness :
  KEnter = KEnter /\ ac_open (mkAc true "" 0%Z) = true /\ (0 <= ac_active (mkAc true "" 0%Z))%Z
  /\ (exists it, nth_error sample_media (Z.to_nat (ac_active (mkAc true "" 0%Z))) = Some it
                 /\ "media://m1" = tokenFor (m_id it))
  /\ fst (onKeyDown sample_media (mkAc true "" 0%Z) KEnter) = mkAc false "" (-1).
Proof.
  apply (onKeyDown_pick sample_media (mkAc true "" 0%Z) KEnter "media://m1"). reflexivity.
Defined.



Open Scope Q_scope.

Lemma js_round_spec (x : Q) : inject_Z (js_round x) <= x + (1 # 2) /\ x - (1 # 2) < inject_Z (js_round x).
Proof.
  unfold js_round. destruct (proj1 (Qfloor__spec (x + (1 # 2)) _) eq_refl) as [H1 H2].
  split; [exact H1|]. lra.
Qed.

Lemma js_round_int (k : Z) : js_round (inject_Z k) = k.
Proof.
  unfold js_round. apply Qfloor__spec. split; lra.
Qed.

Lemma js_round_le (x y : Q) : x <= y -> (js_round x <= js_round y)%Z.
Proof.
  intros H. unfold js_round. rewrite !Qfloor__Qfloor. apply Qfloor_resp_le. lra.
Qed.

(** X10: the floating menu position is at least 8 px from the left edge;
    its max height is between 140 and max(140, maxMenuHeight); it opens below
    exactly when the space below is at least min(maxMenuHeight, half the
    viewport) or at least the space above; it ends at least 7 px before the
    right edge when the viewport is 16 px wider than the anchor; and it fits
    above the viewport bottom (3 px) when its side has 140 px of room. *)
Theorem floating_compute_bounds (r : ClientRect) (vw vh offset maxMenuHeight : Q) :
  let p := floating_compute r vw vh offset maxMenuHeight in
  (8 <= fp_left p)%Z
  /\ 140 <= fp_maxHeight p <= Qmax 140 maxMenuHeight
  /\ (fp_below p = true <-> Qmin maxMenuHeight (vh * (5 # 10)) <= vh - cr_bottom r
                            \/ cr_top r <= vh - cr_bottom r)
  /\ (cr_width r + 16 <= vw ->
      inject_Z (fp_left p) + inject_Z (match p with FBottom _ _ w _ | FTop _ _ w _ => w end) <= vw - 7)
  /\ match p with
     | FBottom _ top _ mh => 140 <= vh - cr_bottom r - offset - 4 -> inject_Z top + mh <= vh - 3
     | FTop _ bottom _ mh => 140 <= cr_top r - offset - 4 -> inject_Z bottom + mh <= vh - 3
     end.
Proof.
  intros p.
  set (L := Qmax 8 (Qmin (cr_left r) (vw - cr_width r - 8))).
  assert (HL : (8 <= js_round L)%Z).
  { rewrite <- (js_round_int 8). apply js_round_le. unfold L. apply Q.le_max_l. }
  assert (Hw : cr_width r + 16 <= vw -> inject_Z (js_round L) + inject_Z (js_round (cr_width r)) <= vw - 7).
  { intros Hv. destruct (js_round_spec L) as [H1 _]. destruct (js_round_spec (cr_width r)) as [H2 _].
    assert (L <= vw - cr_width r - 8) by (unfold L; qminmax; lra). lra. }
  unfold p, floating_compute. fold L.
  destruct (Qle_bool (Qmin maxMenuHeight (vh * (5 # 10))) (vh - cr_bottom r)) eqn:E1;
  destruct (Qle_bool (cr_top r) (vh - cr_bottom r)) eqn:E2; cbn [orb fp_left fp_maxHeight fp_below];
  try rewrite Qle_bool_iff in E1; try rewrite Qle_bool_iff in E2.
  all: split; [exact HL|]; split; [split; qminmax; lra|]; split;
       [| split; [exact Hw|]].
  all: try (split; [intros _|intros _; reflexivity]; tauto).
  - intros H. destruct (js_round_spec (cr_bottom r + offset)) as [H1 _]. qminmax; lra.
  - intros H. destruct (js_round_spec (cr_bottom r + offset)) as [H1 _]. qminmax; lra.
  - intros H. destruct (js_round_spec (cr_bottom r + offset)) as [H1 _]. qminmax; lra.
  - split; [discriminate|]. intros [H|H].
    + exfalso. assert (Hf : Qle_bool (Qmin maxMenuHeight (vh * (5 # 10))) (vh - cr_bottom r) = true)
        by (apply Qle_bool_iff; exact H). congruence.
    + exfalso. assert (Hf : Qle_bool (cr_top r) (vh - cr_bottom r) = true)
        by (apply Qle_bool_iff; exact H). congruence.
  - intros H. destruct (js_round_spec (vh - (cr_top r - offset))) as [H1 _]. qminmax; lra.
Qed.

Lemma inject_Z_sub (a b : Z) : inject_Z (a - b) == inject_Z a - inject_Z b.
Proof. unfold Qeq. cbn. lia. Qed.

Lemma js_round_comp (x y : Q) : x == y -> js_round x = js_round y.
Proof. intros H. unfold js_round. rewrite !Qfloor__Qfloor. apply Qfloor_comp. rewrite H. reflexivity. Qed.

(** X11: the minus button gives a zoom of at least 5% and at most
    max(5%, zoom); the plus button gives at least min(500%, zoom) and at
    most 500%. *)
Theorem ZoomBar_clamped (zoom : Q) :
  5 # 100 <= ZoomBar_minus false zoom <= Qmax (5 # 100) zoom
  /\ Qmin 5 zoom <= ZoomBar_plus false zoom <= 5.
Proof.
  unfold ZoomBar_minus, ZoomBar_plus.
  destruct (js_round_spec (zoom * 100)) as [H1 H2]. unfold zoom_pct.
  set (p := js_round (zoom * 100)) in *.
  rewrite (js_round_comp (inject_Z p - 10) (inject_Z (p - 10))) by (rewrite inject_Z_sub; reflexivity).
  rewrite (js_round_comp (inject_Z p + 10) (inject_Z (p + 10))) by (rewrite inject_Z_plus; reflexivity).
  rewrite !js_round_int.
  assert (Hmax : forall a b : Z, inject_Z (Z.max a b) == Qmax (inject_Z a) (inject_Z b)).
  { intros a b. destruct (Z.max_spec a b) as [[Ha ->]|[Ha ->]]; qminmax;
      rewrite ?Zlt_Qlt, ?Zle_Qle in *; try reflexivity; lra. }
  assert (Hmin : forall a b : Z, inject_Z (Z.min a b) == Qmin (inject_Z a) (inject_Z b)).
  { intros a b. destruct (Z.min_spec a b) as [[Ha ->]|[Ha ->]]; qminmax;
      rewrite ?Zlt_Qlt, ?Zle_Qle in *; try reflexivity; lra. }
  rewrite Hmax, Hmin, inject_Z_sub, inject_Z_plus.
  change (inject_Z 5) with 5. change (inject_Z 500) with 500. change (inject_Z 10) with 10.
  unfold Qdiv. change (/ 100) with (1 # 100).
  split; split; qminmax; lra.
Qed.

(** X12: from a whole percentage k between 5 and 500, minus goes to
    max(5, k - 10)% and plus to min(500, k + 10)%. *)
Theorem ZoomBar_percent_steps (k : Z) (Hk : (5 <= k <= 500)%Z) :
  ZoomBar_minus false (inject_Z k / 100) = inject_Z (Z.max 5 (k - 10)) / 100
  /\ ZoomBar_plus false (inject_Z k / 100) = inject_Z (Z.min 500 (k + 10)) / 100.
Proof.
  unfold ZoomBar_minus, ZoomBar_plus, zoom_pct.
  rewrite (js_round_comp (inject_Z k / 100 * 100) (inject_Z k)) by (field; discriminate).
  rewrite js_round_int.
  rewrite (js_round_comp (inject_Z k - 10) (inject_Z (k - 10))) by (rewrite inject_Z_sub; reflexivity).
  rewrite (js_round_comp (inject_Z k + 10) (inject_Z (k + 10))) by (rewrite inject_Z_plus; reflexivity).
  rewrite !js_round_int. split; reflexivity.
Qed.

Lemma ZoomBar_percent_steps_witness :
  ZoomBar_minus false (inject_Z 100 / 100) = inject_Z (Z.max 5 (100 - 10)) / 100
  /\ ZoomBar_plus false (inject_Z 100 / 100) = inject_Z (Z.min 500 (100 + 10)) / 100.
Proof.
  apply ZoomBar_percent_steps. lia.
Defined.

(** X13: with fit-width on, the stage is max(200, clientWidth - 24) wide and
    keeps the design's aspect ratio. *)
Theorem FitStage_fit_width (designW designH zoom clientWidth : Q) (HW : 0 < designW) :
  let s := FitStage_size designW designH zoom true clientWidth in
  st_w s == Qmax 200 (clientWidth - 24) /\ st_h s * designW == st_w s * designH.
Proof.
  unfold FitStage_size, stage_scale, fit_scale. cbn [st_w st_h]. split.
  - field. intros H. rewrite H in HW. discriminate.
  - ring.
Qed.

Lemma FitStage_fit_width_witness :
  let s := FitStage_size 2550 3300 1 true 1000 in
  st_w s == Qmax 200 (1000 - 24) /\ st_h s * 2550 == st_w s * 3300.
Proof.
  apply FitStage_fit_width. unfold Qlt. cbn. lia.
Defined.

(** X14: the contain placement of an image keeps its aspect ratio, fills
    the inner box (the box less its padding) on one side, stays inside it
    and is centered in it. *)
Theorem contain_place_fits (x y w h padding imgW imgH : Q) (HW : 0 < imgW) (HH : 0 < imgH) :
  let p := contain_place x y w h padding imgW imgH in
  let iw := Qmax 0 (w - 2 * padding) in
  let ih := Qmax 0 (h - 2 * padding) in
  0 <= p_w p <= iw /\ 0 <= p_h p <= ih
  /\ p_w p * imgH == p_h p * imgW
  /\ (p_w p == iw \/ p_h p == ih)
  /\ x + padding <= p_x p /\ p_x p + p_w p <= x + padding + iw
  /\ y + padding <= p_y p /\ p_y p + p_h p <= y + padding + ih
  /\ p_x p - (x + padding) == x + padding + iw - (p_x p + p_w p)
  /\ p_y p - (y + padding) == y + padding + ih - (p_y p + p_h p).
Proof.
  intros p iw ih. unfold p, contain_place. fold iw ih.
  cbn [p_x p_y p_w p_h].
  assert (Hiw : 0 <= iw) by (unfold iw; apply Q.le_max_l).
  assert (Hih : 0 <= ih) by (unfold ih; apply Q.le_max_l).
  assert (Hsx : imgW * (iw / imgW) == iw) by (field; intros E; rewrite E in HW; discriminate).
  assert (Hsy : imgH * (ih / imgH) == ih) by (field; intros E; rewrite E in HH; discriminate).
  assert (Hsx0 : 0 <= iw / imgW) by (apply Qle_shift_div_l; [exact HW|lra]).
  assert (Hsy0 : 0 <= ih / imgH) by (apply Qle_shift_div_l; [exact HH|lra]).
  set (sx := iw / imgW) in *. set (sy := ih / imgH) in *.
  assert (Hs0 : 0 <= Qmin sx sy) by (qminmax; lra).
  assert (Hw1 : imgW * Qmin sx sy <= iw).
  { rewrite <- Hsx. apply Qmult_le_l; [exact HW|apply Q.le_min_l]. }
  assert (Hh1 : imgH * Qmin sx sy <= ih).
  { rewrite <- Hsy. apply Qmult_le_l; [exact HH|apply Q.le_min_r]. }
  assert (Hw0 : 0 <= imgW * Qmin sx sy) by (apply Qmult_le_0_compat; lra).
  assert (Hh0 : 0 <= imgH * Qmin sx sy) by (apply Qmult_le_0_compat; lra).
  assert (Hfill : imgW * Qmin sx sy == iw \/ imgH * Qmin sx sy == ih).
  { destruct (Q.min_spec sx sy) as [[_ E]|[_ E]]; rewrite E; [left|right]; assumption. }
  set (s := Qmin sx sy) in *.
  split; [lra|]. split; [lra|]. split; [ring|]. split; [exact Hfill|].
  unfold Qdiv. change (/ 2) with (1 # 2).
  repeat split; lra.
Qed.

Lemma contain_place_fits_witness :
  let p := contain_place 0 0 400 300 10 800 600 in
  p_w p * 600 == p_h p * 800 /\ (p_w p == 380 \/ p_h p == 280).
Proof.
  destruct (contain_place_fits 0 0 400 300 10 800 600 ltac:(unfold Qlt; cbn; lia)
              ltac:(unfold Qlt; cbn; lia)) as (_ & _ & Ha & Hf & _).
  split; [exact Ha|exact Hf].
Defined.

Lemma cards_check :
  forallb (fun i => card_inside (FeaturedLayer_card i)
                    && forallb (fun j => Nat.eqb i j || separated (FeaturedLayer_card i) (FeaturedLayer_card j))
                               (seq 0 9)) (seq 0 9) = true.
Proof. vm_compute. reflexivity. Qed.

(** X15: each of the nine featured cards lies within the side margins,
    below y = 700 and above the footer, and two different cards do not
    overlap. *)
Theorem FeaturedLayer_cards_layout (i j : nat) (Hi : (i < 9)%nat) (Hj : (j < 9)%nat) :
  let a := FeaturedLayer_card i in
  let b := FeaturedLayer_card j in
  (MARGIN <= p_x a /\ p_x a + p_w a <= CANVAS_W - MARGIN /\ 700 <= p_y a /\ p_y a + p_h a <= Footer_top)
  /\ (i <> j -> p_x a + p_w a <= p_x b \/ p_x b + p_w b <= p_x a
                \/ p_y a + p_h a <= p_y b \/ p_y b + p_h b <= p_y a).
Proof.
  intros a b.
  pose proof cards_check as C. rewrite forallb_forall in C.
  specialize (C i ltac:(apply in_seq; lia)). apply andb_prop in C as [Cin Cj].
  rewrite forallb_forall in Cj. specialize (Cj j ltac:(apply in_seq; lia)).
  split.
  - unfold card_inside in Cin. fold a in Cin.
    repeat rewrite andb_true_iff in Cin. rewrite !Qle_bool_iff in Cin. tauto.
  - intros Hne. apply Nat.eqb_neq in Hne. rewrite Hne in Cj. cbn [orb] in Cj.
    unfold separated in Cj. fold a b in Cj.
    repeat rewrite orb_true_iff in Cj. rewrite !Qle_bool_iff in Cj. tauto.
Qed.

Lemma FeaturedLayer_cards_layout_witness :
  let a := FeaturedLayer_card 0 in
  let b := FeaturedLayer_card 4 in
  (MARGIN <= p_x a /\ p_x a + p_w a <= CANVAS_W - MARGIN /\ 700 <= p_y a /\ p_y a + p_h a <= Footer_top)
  /\ ((0 <> 4)%nat -> p_x a + p_w a <= p_x b \/ p_x b + p_w b <= p_x a
                      \/ p_y a + p_h a <= p_y b \/ p_y b + p_h b <= p_y a).
Proof.
  apply (FeaturedLayer_cards_layout 0 4); lia.
Defined.

(** X16: a featured card from index 9 on would reach past the bottom of the
    canvas. *)
Theorem FeaturedLayer_tenth_card_off_canvas (i : nat) (Hi : (9 <= i)%nat) :
  CANVAS_H < p_y (FeaturedLayer_card i) + p_h (FeaturedLayer_card i).
Proof.
  assert (Hr : (3 <= Nat.div i 3)%nat) by (apply Nat.div_le_lower_bound; lia).
  unfold FeaturedLayer_card. cbn [p_y p_h].
  set (r := Nat.div i 3) in *.
  unfold CANVAS_H, CANVAS_W, MARGIN.
  assert (H3 : 3 <= inject_Z (Z.of_nat r)) by (change 3 with (inject_Z 3); rewrite <- Zle_Qle; change 3%Z with (Z.of_nat 3); lia).
  unfold Qdiv. change (/ 3) with (1 # 3). lra.
Qed.

Lemma FeaturedLayer_tenth_card_off_canvas_witness :
  CANVAS_H < p_y (FeaturedLayer_card 9) + p_h (FeaturedLayer_card 9).
Proof.
  apply FeaturedLayer_tenth_card_off_canvas. lia.
Defined.

(** X17: with the default font scale, the grocery table ends above the
    footer exactly when it has at most 38 rows. *)
Theorem grocery_table_fits_footer (rows : list Row) :
  grocery_table_bottom rows (grocery_font_scale None) <= Footer_top <-> (length rows <= 38)%nat.
Proof.
  unfold grocery_table_bottom, grocery_font_scale. generalize (length rows) as n. intros n.
  destruct (Nat.le_gt_cases n 35) as [Hn|Hn].
  - do 36 (destruct n as [|n]; [split; intros; [lia|apply Qle_bool_iff; vm_compute; reflexivity]|]).
    lia.
  - assert (Hd : clamp (30 / max_rows_1 n) (85 # 100) 1 == 85 # 100).
    { unfold clamp, max_rows_1.
      assert (Hx : 30 / inject_Z (Z.max (Z.of_nat n) 1) <= 85 # 100).
      { rewrite Z.max_l by lia. apply Qle_shift_div_r.
        - unfold Qlt. cbn [Qnum Qden inject_Z]. lia.
        - unfold Qle. cbn [Qnum Qden Qmult inject_Z]. rewrite ?Pos2Z.inj_mul. lia. }
      set (d := 30 / inject_Z (Z.max (Z.of_nat n) 1)) in *. qminmax; lra. }
    unfold sectionMetrics. cbn [height]. fold (max_rows_1 n). rewrite Hd.
    unfold Footer_top, CANVAS_H. split; intros H.
    + destruct (Nat.le_gt_cases n 38) as [|Hgt]; [assumption|exfalso].
      assert (H39 : 39 <= inject_Z (Z.of_nat n))
        by (change 39 with (inject_Z 39); rewrite <- Zle_Qle; lia).
      lra.
    + assert (H38 : inject_Z (Z.of_nat n) <= 38)
        by (change 38 with (inject_Z 38); rewrite <- Zle_Qle; lia).
      lra.
Qed.

Open Scope nat_scope.

Lemma filter_cons_eq {A} (f : A -> bool) (x : A) (l : list A) :
  filter f (x :: l) = if f x then x :: filter f l else filter f l.
Proof. reflexivity. Qed.

Lemma existsb_cons_eq {A} (f : A -> bool) (x : A) (l : list A) :
  existsb f (x :: l) = f x || existsb f l.
Proof. reflexivity. Qed.

Lemma simple_forEach_spec (sh : string) (rs : list JsonRow) (out : list Row) (d : nat)
  (iss : list WorkbookIssue) :
  simple_forEach sh rs out d iss
  = (app out (map row_of (filter row_named rs)),
     app iss (if (d =? 0) && existsb (fun r => negb (row_named r)) rs
              then [rows_missing_name_issue sh] else [])).
Proof.
  revert out d iss. induction rs as [|r rs IH]; intros out d iss.
  - cbn [simple_forEach filter map existsb]. rewrite andb_false_r, !app_nil_r. reflexivity.
  - cbn [simple_forEach]. rewrite filter_cons_eq, existsb_cons_eq.
    replace (String.eqb (cellStr r "Product Name") "") with (negb (row_named r))
      by (unfold row_named; rewrite negb_involutive; reflexivity).
    destruct (row_named r) eqn:E; cbn [negb orb].
    + rewrite IH. cbn [map]. rewrite <- app_assoc. reflexivity.
    + rewrite IH. rewrite andb_true_r.
      destruct d; cbn [Nat.eqb andb]; [|reflexivity].
      rewrite <- app_assoc. reflexivity.
Qed.

(** X18: when the columns are present, [parseSimpleRows] keeps exactly the
    rows with a product name, in order, and adds one warning if some row
    has no name and one error if no row is left from a non-empty sheet. *)
Theorem parseSimpleRows_spec (raw : list JsonRow) (sh : string) (iss0 : list WorkbookIssue)
  (Hc : haveColumns raw COLS_rows = true) :
  parseSimpleRows (Some raw) sh iss0
  = (map row_of (filter row_named raw),
     app iss0 (app (if existsb (fun r => negb (row_named r)) raw then [rows_missing_name_issue sh] else [])
                   (if (length (filter row_named raw) =? 0) && negb (length raw =? 0)
                    then [rows_no_valid_rows_issue sh] else []))).
Proof.
  unfold parseSimpleRows. rewrite Hc. cbn [negb].
  match goal with |- context [?g raw [] 0 iss0] =>
    assert (Hg : forall rs out d iss, g rs out d iss = simple_forEach sh rs out d iss)
  end.
  { intros rs. induction rs as [|r rs IH]; intros out d iss; [reflexivity|].
    cbn [simple_forEach]. rewrite <- !IH. reflexivity. }
  rewrite Hg, simple_forEach_spec. cbn [app Nat.eqb andb]. rewrite length_map.
  destruct ((length (filter row_named raw) =? 0) && negb (length raw =? 0));
    rewrite <- ?app_assoc, ?app_nil_r; reflexivity.
Qed.

Lemma parseSimpleRows_spec_witness :
  parseSimpleRows (Some [sample_featured_row "Milk"; sample_featured_row ""]) "Grocery" []
  = ([row_of (sample_featured_row "Milk")], [rows_missing_name_issue "Grocery"]).
Proof.
  rewrite (parseSimpleRows_spec [sample_featured_row "Milk"; sample_featured_row ""] "Grocery" []
             eq_refl).
  reflexivity.
Defined.

Lemma indices_from_cons {A} (f : A -> bool) (i : nat) (x : A) (l : list A) :
  indices_from f i (x :: l) = if f x then i :: indices_from f (S i) l else indices_from f (S i) l.
Proof. reflexivity. Qed.

Lemma featured_name_rows_cons (x : WorkbookIssue) (new : list WorkbookIssue) :
  featured_name_rows (app [x] new)
  = app (if String.eqb (icode x) "featured_missing_name" then [row x] else []) (featured_name_rows new).
Proof. unfold featured_name_rows. cbn. destruct (String.eqb (icode x) "featured_missing_name"); reflexivity. Qed.

Lemma featured_price_rows_cons (x : WorkbookIssue) (new : list WorkbookIssue) :
  featured_price_rows (app [x] new)
  = app (if String.eqb (icode x) "featured_missing_price" then [row x] else []) (featured_price_rows new).
Proof. unfold featured_price_rows. cbn. destruct (String.eqb (icode x) "featured_missing_price"); reflexivity. Qed.

Lemma featured_forEach_issues (rs : list JsonRow) (i : nat) (out : list FeaturedItem) (d : nat)
  (iss : list WorkbookIssue) :
  exists new, snd (featured_forEach rs i out d iss) = app iss new
  /\ featured_name_rows new = map (fun k => Some (k + 2)) (indices_from (fun r => negb (row_named r)) i rs)
  /\ featured_price_rows new = map (fun k => Some (k + 2)) (indices_from price_missing i rs).
Proof.
  revert i out d iss. induction rs as [|r rs IH]; intros i out d iss.
  - exists []. cbn. rewrite app_nil_r. tauto.
  - cbn [featured_forEach]. rewrite !indices_from_cons.
    replace (String.eqb (cellStr r "Product Name") "") with (negb (row_named r))
      by (unfold row_named; rewrite negb_involutive; reflexivity).
    assert (Hpm : price_missing r = row_named r && String.eqb (toStr (assoc "Price" r)) "")
      by reflexivity.
    rewrite Hpm. destruct (row_named r) eqn:E; cbn [negb andb].
    + destruct (String.eqb (toStr (assoc "Price" r)) "") eqn:Ep.
      * edestruct IH as [new [H1 [H2 H3]]].
        eexists. split; [rewrite H1, <- app_assoc; reflexivity|].
        rewrite featured_name_rows_cons, featured_price_rows_cons. cbn [icode issue].
        replace (String.eqb "featured_missing_price" "featured_missing_name") with false by reflexivity.
        rewrite String.eqb_refl. cbn [app row map]. rewrite H2, H3. split; reflexivity.
      * edestruct IH as [new [H1 [H2 H3]]]. exists new. split; [exact H1|]. tauto.
    + edestruct IH as [new [H1 [H2 H3]]].
      eexists. split; [rewrite H1, <- app_assoc; reflexivity|].
      rewrite featured_name_rows_cons, featured_price_rows_cons. cbn [icode issue].
      replace (String.eqb "featured_missing_name" "featured_missing_price") with false by reflexivity.
      rewrite String.eqb_refl. cbn [app row map]. rewrite H2, H3. split; reflexivity.
Qed.

(** X19: [parseFeaturedRows] only appends issues; its missing-name warnings
    name the spreadsheet rows (index + 2) of the rows without a name, and its
    missing-price warnings those of the named rows with an empty price, in
    order. *)
Theorem parseFeaturedRows_issue_rows (raw : list JsonRow) (iss0 : list WorkbookIssue)
  (Hc : haveColumns raw COLS_featured = true) :
  exists new, snd (parseFeaturedRows (Some raw) iss0) = app iss0 new
  /\ featured_name_rows new = map (fun k => Some (k + 2)) (indices_from (fun r => negb (row_named r)) 0 raw)
  /\ featured_price_rows new = map (fun k => Some (k + 2)) (indices_from price_missing 0 raw).
Proof.
  destruct (featured_forEach_issues raw 0 [] 0 iss0) as [new [H1 [H2 H3]]].
  unfold parseFeaturedRows. rewrite Hc. cbn [negb].
  destruct (featured_forEach raw 0 [] 0 iss0) as [[out dropped] iss] eqn:E. cbn [snd] in H1 |- *.
  subst iss.
  destruct ((length out =? 0) && negb (length raw =? 0)).
  - exists (app new [issue LError "featured_no_valid_rows"
                    "“Featured Items” could not be parsed into any valid items."
                    (Some "Featured Items") None None]).
    rewrite app_assoc. split; [reflexivity|].
    unfold featured_name_rows, featured_price_rows in *. rewrite !filter_app, !map_app.
    cbn [filter icode issue]. rewrite H2, H3.
    replace (String.eqb "featured_no_valid_rows" "featured_missing_name") with false by reflexivity.
    replace (String.eqb "featured_no_valid_rows" "featured_missing_price") with false by reflexivity.
    cbn [map]. rewrite !app_nil_r. split; reflexivity.
  - destruct (0 <? dropped).
    + exists (app new [issue LWarning "featured_dropped_rows"
                    "Some Featured rows were skipped due to missing required fields."
                    (Some "Featured Items") None None]).
      rewrite app_assoc. split; [reflexivity|].
      unfold featured_name_rows, featured_price_rows in *. rewrite !filter_app, !map_app.
      cbn [filter icode issue]. rewrite H2, H3.
      replace (String.eqb "featured_dropped_rows" "featured_missing_name") with false by reflexivity.
      replace (String.eqb "featured_dropped_rows" "featured_missing_price") with false by reflexivity.
      cbn [map]. rewrite !app_nil_r. split; reflexivity.
    + exists new. tauto.
Qed.

Lemma parseFeaturedRows_issue_rows_witness :
  exists new, snd (parseFeaturedRows (Some [sample_featured_row "Apples"; sample_featured_row ""]) [])
              = app [] new
  /\ featured_name_rows new = [Some 3] /\ featured_price_rows new = [].
Proof.
  destruct (parseFeaturedRows_issue_rows [sample_featured_row "Apples"; sample_featured_row ""] []
              eq_refl) as [new [H1 [H2 H3]]].
  exists new. split; [exact H1|]. split; [rewrite H2; reflexivity|rewrite H3; reflexivity].
Defined.

Lemma issue_codes_in_app cs l1 l2 :
  issue_codes_in cs (app l1 l2) = issue_codes_in cs l1 && issue_codes_in cs l2.
Proof. unfold issue_codes_in. apply forallb_app. Qed.

Lemma issue_codes_in_none cs l c :
  issue_codes_in cs l = true -> existsb (String.eqb c) cs = false ->
  existsb (fun x => String.eqb (icode x) c) l = false.
Proof.
  intros H Hc. apply Bool.not_true_iff_false. intros Hx.
  apply existsb_exists in Hx as [x [Hx Ex]]. apply String.eqb_eq in Ex.
  unfold issue_codes_in in H. rewrite forallb_forall in H. specialize (H x Hx).
  rewrite Ex in H. rewrite H in Hc. discriminate.
Qed.

Lemma featured_forEach_codes (rs : list JsonRow) (i : nat) (out : list FeaturedItem) (d : nat)
  (iss : list WorkbookIssue) :
  exists new, snd (featured_forEach rs i out d iss) = app iss new /\ issue_codes_in featured_codes new = true.
Proof.
  revert i out d iss. induction rs as [|r rs IH]; intros i out d iss.
  - exists []. cbn. rewrite app_nil_r. tauto.
  - cbn [featured_forEach].
    destruct (String.eqb (cellStr r "Product Name") "").
    + edestruct IH as [new [H1 H2]]. eexists. split; [rewrite H1, <- app_assoc; reflexivity|].
      rewrite issue_codes_in_app, H2. reflexivity.
    + destruct (String.eqb (toStr (assoc "Price" r)) "").
      * edestruct IH as [new [H1 H2]]. eexists. split; [rewrite H1, <- app_assoc; reflexivity|].
        rewrite issue_codes_in_app, H2. reflexivity.
      * edestruct IH as [new [H1 H2]]. eexists. split; [exact H1|exact H2].
Qed.

Lemma parseFeaturedRows_codes (raw : option (list JsonRow)) (iss : list WorkbookIssue) :
  exists new, snd (parseFeaturedRows raw iss) = app iss new /\ issue_codes_in featured_codes new = true.
Proof.
  destruct raw as [raw|]; [|exists []; cbn; rewrite app_nil_r; tauto].
  unfold parseFeaturedRows. destruct (haveColumns raw COLS_featured); cbn [negb].
  - destruct (featured_forEach_codes raw 0 [] 0 iss) as [new [H1 H2]].
    destruct (featured_forEach raw 0 [] 0 iss) as [[out dropped] iss'].
    cbn [snd] in H1 |- *. subst iss'.
    destruct ((length out =? 0) && negb (length raw =? 0)); [|destruct (0 <? dropped)].
    all: eexists; split; [rewrite <- ?app_assoc; reflexivity|].
    all: rewrite ?issue_codes_in_app, H2; reflexivity.
  - eexists. split; [reflexivity|]. reflexivity.
Qed.

Lemma parseSimpleRows_eq (raw : list JsonRow) (sh : string) (iss0 : list WorkbookIssue) :
  parseSimpleRows (Some raw) sh iss0
  = if negb (haveColumns raw COLS_rows) then
      ([], app iss0 [issue LError "missing_columns_rows"
                       ("“" ++ sh ++ "” is missing one or more required columns: "
                        ++ join ", " COLS_rows) (Some sh) None None])
    else
      let '(out, iss) := simple_forEach sh raw [] 0 iss0 in
      (out, if (length out =? 0) && negb (length raw =? 0) then app iss [rows_no_valid_rows_issue sh]
            else iss).
Proof.
  unfold parseSimpleRows. destruct (negb (haveColumns raw COLS_rows)); [reflexivity|].
  match goal with |- context [?g raw [] 0 iss0] =>
    assert (Hg : forall rs out d iss, g rs out d iss = simple_forEach sh rs out d iss)
  end.
  { intros rs. induction rs as [|r rs IH]; intros out d iss; [reflexivity|].
    cbn [simple_forEach]. rewrite <- !IH. reflexivity. }
  rewrite Hg. reflexivity.
Qed.

Lemma parseSimpleRows_codes (raw : option (list JsonRow)) (sh : string) (iss : list WorkbookIssue) :
  exists new, snd (parseSimpleRows raw sh iss) = app iss new /\ issue_codes_in rows_codes new = true.
Proof.
  destruct raw as [raw|]; [|exists []; cbn; rewrite app_nil_r; tauto].
  rewrite parseSimpleRows_eq. destruct (haveColumns raw COLS_rows); cbn [negb].
  - rewrite simple_forEach_spec. cbn [app].
    destruct ((length (map row_of (filter row_named raw)) =? 0) && negb (length raw =? 0));
    destruct ((0 =? 0) && existsb (fun r => negb (row_named r)) raw).
    all: eexists; split; [rewrite <- ?app_assoc; reflexivity|].
    all: rewrite ?issue_codes_in_app; reflexivity.
  - eexists. split; [reflexivity|]. reflexivity.
Qed.

(** X20: on a readable workbook, [parseWorkbookDetailed] reports a
    missing-sheets issue exactly when a required sheet is absent from the
    sheet names, and an unexpected-sheets issue exactly when some sheet is
    neither required nor ignored. *)
Theorem parseWorkbookDetailed_sheet_issues (buffer : Type) (XLSX_read : buffer -> Result Workbook)
  (buf : buffer) (wb : Workbook) (Hr : XLSX_read buf = Ok wb) :
  exists r, parseWorkbookDetailed buffer XLSX_read buf = Ok r
  /\ existsb (fun i => String.eqb (icode i) "missing_sheets") (issues r)
     = existsb (fun n => negb (existsb (String.eqb n) (SheetNames wb))) REQUIRED_SHEETS
  /\ existsb (fun i => String.eqb (icode i) "unexpected_sheets") (issues r)
     = existsb (fun n => negb (existsb (String.eqb n) REQUIRED_SHEETS) && negb (isIgnoredSheet n))
               (SheetNames wb).
Proof.
  unfold parseWorkbookDetailed. rewrite Hr.
  set (missing := filter _ REQUIRED_SHEETS).
  set (extras := filter _ (filter _ (SheetNames wb))).
  set (issues2 := match extras with [] => _ | _ => _ end).
  destruct (parseFeaturedRows_codes (sheetToJson wb "Featured Items") issues2) as [n3 [E3 C3]].
  destruct (parseFeaturedRows (sheetToJson wb "Featured Items") issues2) as [featured issues3].
  cbn [snd] in E3. subst issues3.
  destruct (parseSimpleRows_codes (sheetToJson wb "Grocery") "Grocery" (app issues2 n3)) as [n4 [E4 C4]].
  destruct (parseSimpleRows (sheetToJson wb "Grocery") "Grocery" (app issues2 n3)) as [grocery issues4].
  cbn [snd] in E4. subst issues4.
  destruct (parseSimpleRows_codes (sheetToJson wb "Frozen Foods") "Frozen Foods" (app (app issues2 n3) n4))
    as [n5 [E5 C5]].
  destruct (parseSimpleRows (sheetToJson wb "Frozen Foods") "Frozen Foods" (app (app issues2 n3) n4))
    as [frozen issues5].
  cbn [snd] in E5. subst issues5.
  destruct (parseSimpleRows_codes (sheetToJson wb "Meat") "Meat" (app (app (app issues2 n3) n4) n5))
    as [n6 [E6 C6]].
  destruct (parseSimpleRows (sheetToJson wb "Meat") "Meat" (app (app (app issues2 n3) n4) n5))
    as [meat issues6].
  cbn [snd] in E6. subst issues6.
  destruct (parseSimpleRows_codes (sheetToJson wb "Produce") "Produce"
              (app (app (app (app issues2 n3) n4) n5) n6)) as [n7 [E7 C7]].
  destruct (parseSimpleRows (sheetToJson wb "Produce") "Produce"
              (app (app (app (app issues2 n3) n4) n5) n6)) as [produce issues7].
  cbn [snd] in E7. subst issues7.
  eexists. split; [reflexivity|]. cbn [issues].
  rewrite !existsb_app.
  rewrite (issue_codes_in_none _ n3 "missing_sheets" C3 eq_refl),
          (issue_codes_in_none _ n4 "missing_sheets" C4 eq_refl),
          (issue_codes_in_none _ n5 "missing_sheets" C5 eq_refl),
          (issue_codes_in_none _ n6 "missing_sheets" C6 eq_refl),
          (issue_codes_in_none _ n7 "missing_sheets" C7 eq_refl),
          (issue_codes_in_none _ n3 "unexpected_sheets" C3 eq_refl),
          (issue_codes_in_none _ n4 "unexpected_sheets" C4 eq_refl),
          (issue_codes_in_none _ n5 "unexpected_sheets" C5 eq_refl),
          (issue_codes_in_none _ n6 "unexpected_sheets" C6 eq_refl),
          (issue_codes_in_none _ n7 "unexpected_sheets" C7 eq_refl).
  rewrite !orb_false_r.
  assert (Hm : existsb (fun n => negb (existsb (String.eqb n) (SheetNames wb))) REQUIRED_SHEETS
               = negb (match missing with [] => true | _ => false end)).
  { unfold missing. generalize REQUIRED_SHEETS. intros l. induction l as [|a l IH]; [reflexivity|].
    cbn [existsb filter]. destruct (negb (existsb (String.eqb a) (SheetNames wb))); [reflexivity|].
    exact IH. }
  assert (He : existsb (fun n => negb (existsb (String.eqb n) REQUIRED_SHEETS) && negb (isIgnoredSheet n))
                 (SheetNames wb) = negb (match extras with [] => true | _ => false end)).
  { unfold extras. generalize (SheetNames wb). intros l. induction l as [|a l IH]; [reflexivity|].
    cbn [existsb filter]. destruct (negb (existsb (String.eqb a) REQUIRED_SHEETS)); cbn [andb filter];
      [|exact IH].
    destruct (negb (isIgnoredSheet a)); [reflexivity|exact IH]. }
  rewrite Hm, He. unfold issues2.
  destruct missing, extras; cbn [existsb app icode issue]; split; reflexivity.
Qed.

Lemma parseWorkbookDetailed_sheet_issues_witness :
  exists r, parseWorkbookDetailed unit sample_extra_sheet_reader tt = Ok r
  /\ existsb (fun i => String.eqb (icode i) "missing_sheets") (issues r) = true
  /\ existsb (fun i => String.eqb (icode i) "unexpected_sheets") (issues r) = true.
Proof.
  destruct (parseWorkbookDetailed_sheet_issues unit sample_extra_sheet_reader tt
              (mkWorkbook ["Grocery"; "Notes"] [("Grocery", []); ("Notes", [])]) eq_refl)
    as [r [H1 [H2 H3]]].
  exists r. split; [exact H1|]. split; [rewrite H2; reflexivity|rewrite H3; reflexivity].
Defined.

Lemma filter_nil_forall {A} (f : A -> bool) (l : list A) :
  (forall x, In x l -> f x = false) -> filter f l = [].
Proof.
  induction l as [|a l IH]; intros H; [reflexivity|].
  cbn. rewrite (H a (or_introl eq_refl)). apply IH. intros x Hx. apply H. right. exact Hx.
Qed.

Lemma existsb_eqb_In (n : string) (l : list string) : In n l -> existsb (String.eqb n) l = true.
Proof. intros H. apply existsb_exists. exists n. split; [exact H|apply String.eqb_refl]. Qed.

(** X21: a workbook whose required sheets are present and empty and whose
    other sheets are all ignored parses to empty data with no issue, and
    [parseWorkbook] returns that data. *)
Theorem parseWorkbook_empty_template (buffer : Type) (XLSX_read : buffer -> Result Workbook)
  (buf : buffer) (wb : Workbook) (Hr : XLSX_read buf = Ok wb)
  (Hreq : forall n, In n REQUIRED_SHEETS -> In n (SheetNames wb) /\ sheetToJson wb n = Some [])
  (Hext : forall n, In n (SheetNames wb) -> In n REQUIRED_SHEETS \/ isIgnoredSheet n = true) :
  parseWorkbookDetailed buffer XLSX_read buf = Ok (mkParseResult empty_data [])
  /\ parseWorkbook buffer XLSX_read buf = Ok empty_data.
Proof.
  assert (Hd : parseWorkbookDetailed buffer XLSX_read buf = Ok (mkParseResult empty_data [])).
  { unfold parseWorkbookDetailed. rewrite Hr.
    assert (Hm : filter (fun n => negb (existsb (String.eqb n) (SheetNames wb))) REQUIRED_SHEETS = []).
    { apply filter_nil_forall. intros n Hn. rewrite existsb_eqb_In by apply (Hreq n Hn). reflexivity. }
    assert (He : filter (fun n => negb (isIgnoredSheet n))
                   (filter (fun n => negb (existsb (String.eqb n) REQUIRED_SHEETS)) (SheetNames wb)) = []).
    { apply filter_nil_forall. intros n Hn. apply filter_In in Hn as [Hn Hnr].
      destruct (Hext n Hn) as [Hq|Hq].
      - rewrite existsb_eqb_In in Hnr by exact Hq. discriminate.
      - rewrite Hq. reflexivity. }
    cbv beta zeta. rewrite Hm, He.
    rewrite (proj2 (Hreq "Featured Items" ltac:(cbn; tauto))),
            (proj2 (Hreq "Grocery" ltac:(cbn; tauto))),
            (proj2 (Hreq "Frozen Foods" ltac:(cbn; tauto))),
            (proj2 (Hreq "Meat" ltac:(cbn; tauto))),
            (proj2 (Hreq "Produce" ltac:(cbn; tauto))).
    reflexivity. }
  split; [exact Hd|]. unfold parseWorkbook. rewrite Hd. reflexivity.
Qed.

Lemma parseWorkbook_empty_template_witness :
  parseWorkbookDetailed unit sample_template_reader tt = Ok (mkParseResult empty_data [])
  /\ parseWorkbook unit sample_template_reader tt = Ok empty_data.
Proof.
  apply (parseWorkbook_empty_template unit sample_template_reader tt sample_template eq_refl).
  - intros n Hn. cbn [REQUIRED_SHEETS In] in Hn.
    destruct Hn as [<-|[<-|[<-|[<-|[<-|[]]]]]]; split; (cbn; auto 10).
  - intros n Hn. cbn [sample_template SheetNames In] in Hn.
    destruct Hn as [<-|[<-|[<-|[<-|[<-|[<-|[]]]]]]];
      [left; cbn; auto 10..|right; reflexivity].
Defined.

(** X22: the older [parseWorkbook] fails with [Missing sheet: name] for the
    first required sheet, in the order Featured Items, Grocery, Frozen
    Foods, Meat, Produce, that is missing. *)
Theorem legacy_parseWorkbook_first_missing (wb : Workbook) (n : string)
  (Hn : find (sheet_absent wb) REQUIRED_SHEETS = Some n) :
  legacy_parseWorkbook (Ok wb) = Throw ("Missing sheet: " ++ n).
Proof.
  unfold legacy_parseWorkbook, legacy_get. cbn [bind].
  cbn [find REQUIRED_SHEETS] in Hn. unfold sheet_absent in Hn.
  destruct (sheetToJson wb "Featured Items"); [|injection Hn as <-; reflexivity]. cbn [bind].
  destruct (sheetToJson wb "Grocery"); [|injection Hn as <-; reflexivity]. cbn [bind].
  destruct (sheetToJson wb "Frozen Foods"); [|injection Hn as <-; reflexivity]. cbn [bind].
  destruct (sheetToJson wb "Meat"); [|injection Hn as <-; reflexivity]. cbn [bind].
  destruct (sheetToJson wb "Produce"); [|injection Hn as <-; reflexivity].
  discriminate Hn.
Qed.

Lemma legacy_parseWorkbook_first_missing_witness :
  legacy_parseWorkbook (Ok (mkWorkbook ["Featured Items"; "Grocery"]
                              [("Featured Items", []); ("Grocery", [])]))
  = Throw ("Missing sheet: " ++ "Frozen Foods").
Proof.
  apply legacy_parseWorkbook_first_missing. reflexivity.
Defined.

Lemma legacy_rows_named (a : list JsonRow) (r : Row) : In r (legacy_rows a) -> name r <> "".
Proof.
  unfold legacy_rows. intros H. apply filter_In in H as [_ H].
  intros E. rewrite E in H. discriminate.
Qed.

(** X23: when the older [parseWorkbook] succeeds, it keeps the first 9
    featured rows (all of them when fewer) and only rows with a non-empty
    name in the four other sections. *)
Theorem legacy_parseWorkbook_ok (wb : Workbook) (d : WorkbookData)
  (Hd : legacy_parseWorkbook (Ok wb) = Ok d) :
  (exists fr, sheetToJson wb "Featured Items" = Some fr /\ length (d_featured d) = Nat.min 9 (length fr))
  /\ forall r, In r (app (d_grocery d) (app (d_frozen d) (app (d_meat d) (d_produce d)))) -> name r <> "".
Proof.
  unfold legacy_parseWorkbook, legacy_get, bind in Hd.
  destruct (sheetToJson wb "Featured Items") as [fr|]; [|discriminate]. cbv beta iota zeta in Hd.
  destruct (sheetToJson wb "Grocery") as [g|]; [|discriminate]. cbv beta iota zeta in Hd.
  destruct (sheetToJson wb "Frozen Foods") as [fz|]; [|discriminate]. cbv beta iota zeta in Hd.
  destruct (sheetToJson wb "Meat") as [m|]; [|discriminate]. cbv beta iota zeta in Hd.
  destruct (sheetToJson wb "Produce") as [p|]; [|discriminate].
  cbv beta iota zeta in Hd. injection Hd as <-. cbn [d_featured d_grocery d_frozen d_meat d_produce]. split.
  - exists fr. split; [reflexivity|]. rewrite <- (length_map legacy_featured_item fr).
    exact (length_firstn 9 (map legacy_featured_item fr)).
  - intros r Hr. repeat (apply in_app_or in Hr as [Hr|Hr]); eapply legacy_rows_named; exact Hr.
Qed.

Lemma legacy_parseWorkbook_ok_witness :
  exists d, legacy_parseWorkbook (Ok sample_legacy_workbook) = Ok d
  /\ (exists fr, sheetToJson sample_legacy_workbook "Featured Items" = Some fr
                 /\ length (d_featured d) = Nat.min 9 (length fr))
  /\ (forall r, In r (app (d_grocery d) (app (d_frozen d) (app (d_meat d) (d_produce d)))) -> name r <> "").
Proof.
  eexists. split; [reflexivity|].
  apply legacy_parseWorkbook_ok. reflexivity.
Defined.

Open Scope Q_scope.

Lemma take_digits_zero_or_dot (l : list ascii) :
  Forall zero_or_dot l ->
  Forall (fun c => c = "0"%char) (fst (take_digits l))
  /\ (snd (take_digits l) = [] \/ exists t, snd (take_digits l) = "."%char :: t /\ Forall zero_or_dot t).
Proof.
  induction l as [|c l IH]; intros H; [cbn; auto|].
  inversion H as [|? ? Hc Hl]; subst.
  destruct Hc as [->| ->].
  - cbn [take_digits]. replace (is_digit "0") with true by reflexivity.
    destruct (take_digits l) as [d r] eqn:E. cbn [fst snd] in *.
    destruct (IH Hl) as [H1 H2]. split; [constructor; [reflexivity|exact H1]|exact H2].
  - cbn [take_digits]. replace (is_digit ".") with false by reflexivity. cbn [fst snd].
    split; [constructor|]. right. exists l. split; [reflexivity|exact Hl].
Qed.

Lemma digits_value_zeros (d : list ascii) :
  Forall (fun c => c = "0"%char) d -> digits_value 0 d = 0%Z.
Proof.
  induction d as [|c d IH]; intros H; [reflexivity|].
  inversion H as [|? ? Hc Hd]; subst. cbn [digits_value]. exact (IH Hd).
Qed.

Lemma filter_keep_zero_or_dot (l : list ascii) :
  forallb (fun c => negb (is_digit c) || (nat_of_ascii c =? 48)%nat) l = true ->
  Forall zero_or_dot (filter keep_digit_dot l).
Proof.
  induction l as [|c l IH]; intros H; [constructor|].
  cbn [forallb] in H. apply andb_prop in H as [Hc Hl].
  cbn [filter]. destruct (keep_digit_dot c) eqn:Ek; [|exact (IH Hl)].
  constructor; [|exact (IH Hl)].
  unfold keep_digit_dot in Ek. apply orb_prop in Ek as [Ek|Ek].
  - rewrite Ek in Hc. cbn [negb orb] in Hc. apply Nat.eqb_eq in Hc.
    left. rewrite <- (ascii_nat_embedding c). rewrite Hc. reflexivity.
  - apply Nat.eqb_eq in Ek. right. rewrite <- (ascii_nat_embedding c). rewrite Ek. reflexivity.
Qed.

Lemma parseFloat_zero_or_dot (l : list ascii) :
  Forall zero_or_dot l ->
  parseFloat (string_of_list_ascii l) = NaN \/ parseFloat (string_of_list_ascii l) = Finite 0.
Proof.
  intros H. unfold parseFloat. rewrite list_ascii_of_string_of_list_ascii.
  assert (Hs : drop_space l = l).
  { destruct H as [|c l Hc _]; [reflexivity|]. destruct Hc as [-> | ->]; reflexivity. }
  rewrite Hs.
  assert (Hsg : match l with
                | c :: t => if (nat_of_ascii c =? 45)%nat then (true, t)
                            else if (nat_of_ascii c =? 43)%nat then (false, t) else (false, l)
                | [] => (false, [])
                end = (false, l)).
  { destruct H as [|c l Hc _]; [reflexivity|]. destruct Hc as [-> | ->]; reflexivity. }
  rewrite Hsg.
  destruct (take_digits_zero_or_dot l H) as [Hip Hr].
  destruct (take_digits l) as [ip l2]. cbn [fst snd] in *.
  set (fp := match l2 with
             | c :: t => if (nat_of_ascii c =? 46)%nat then fst (take_digits t) else []
             | [] => []
             end).
  assert (Hfp : Forall (fun c => c = "0"%char) fp).
  { unfold fp. destruct Hr as [-> | [t [-> Ht]]]; [constructor|].
    cbn [nat_of_ascii]. exact (proj1 (take_digits_zero_or_dot t Ht)). }
  destruct ip, fp; [left; reflexivity|right..].
  all: rewrite digits_value_zeros by (apply Forall_app; split; assumption).
  all: unfold round_binary64; reflexivity.
Qed.

(** X24: a featured row whose price text has no digit other than 0 is shown
    with a price error. *)
Theorem RowItem_priceError_without_nonzero_digit (it : FeaturedItem)
  (Hp : forallb (fun c => negb (is_digit c) || (nat_of_ascii c =? 48)%nat)
          (list_ascii_of_string (f_price it)) = true) :
  RowItem_priceError it = true.
Proof.
  unfold RowItem_priceError, RowItem_priceVal.
  destruct (parseFloat_zero_or_dot _ (filter_keep_zero_or_dot _ Hp)) as [-> | ->];
    vm_compute; reflexivity.
Qed.

Lemma RowItem_priceError_without_nonzero_digit_witness :
  RowItem_priceError (mkFeatured "Apples" "1 lb" "$0.00" "") = true.
Proof.
  apply RowItem_priceError_without_nonzero_digit. reflexivity.
Defined.

Open Scope nat_scope.

Lemma js_splice_in_range {A} (l : list A) (s : nat) (dc : nat) (items : list A)
  (Hs : s + dc <= length l) :
  js_splice l (Z.of_nat s) dc items = (app (firstn s l) (app items (skipn (s + dc) l)), firstn dc (skipn s l)).
Proof.
  unfold js_splice.
  replace (Z.of_nat s <? 0)%Z with false by (symmetry; apply Z.ltb_ge; lia).
  rewrite Z.min_l by lia. rewrite Nat2Z.id.
  rewrite Nat.min_l by lia. reflexivity.
Qed.

(** X25: dropping row a on row j (both in range) reorders the items only,
    and puts the moved row at position j. *)
Theorem DragEnd_moves_row (items : list FeaturedItem) (a j : nat)
  (Ha : a < length items) (Hj : j < length items) :
  let items' := apply_op items (DragEnd a (Some j)) in
  Permutation items items' /\ nth_error items' j = nth_error items a.
Proof.
  cbn [apply_op]. destruct (a =? j) eqn:E.
  - apply Nat.eqb_eq in E. subst j. split; [apply Permutation_refl|reflexivity].
  - unfold findIndex_id. rewrite (proj2 (Nat.ltb_lt _ _) Ha), (proj2 (Nat.ltb_lt _ _) Hj).
    unfold arrayMove.
    replace (Z.of_nat j <? 0)%Z with false by (symmetry; apply Z.ltb_ge; lia).
    rewrite js_splice_in_range by lia. cbn [fst snd].
    set (x := nth a items undefined_item).
    assert (Ex : nth_error items a = Some x) by (apply nth_error_nth'; exact Ha).
    rewrite Ex.
    assert (Hsplit : items = app (firstn a items) (x :: skipn (a + 1) items)).
    { rewrite <- (firstn_skipn a items) at 1. f_equal.
      rewrite (skipn_nth_cons items a undefined_item Ha). rewrite Nat.add_1_r. reflexivity. }
    assert (Hx : firstn 1 (skipn a items) = [x]).
    { rewrite Hsplit at 1. rewrite skipn_app, length_firstn, Nat.min_l by lia.
      rewrite skipn_all2 by (rewrite length_firstn; lia). rewrite Nat.sub_diag. reflexivity. }
    rewrite Hx. cbn [app].
    set (l1 := app (firstn a items) (skipn (a + 1) items)).
    assert (Hl1 : length l1 = length items - 1).
    { unfold l1. rewrite length_app, length_firstn, length_skipn. lia. }
    rewrite js_splice_in_range by lia. cbn [fst]. rewrite Nat.add_0_r.
    split.
    + rewrite Hsplit at 1. apply (Permutation_trans (l' := x :: l1)).
      * unfold l1. apply Permutation_sym, Permutation_middle.
      * rewrite <- (firstn_skipn j l1) at 1. apply Permutation_middle.
    + rewrite nth_error_app2 by (rewrite length_firstn; lia).
      rewrite length_firstn, Nat.min_l by lia. rewrite Nat.sub_diag. reflexivity.
Qed.

Lemma DragEnd_moves_row_witness :
  let items' := apply_op sample_featured_items (DragEnd 0 (Some 2)) in
  Permutation sample_featured_items items' /\ nth_error items' 2 = nth_error sample_featured_items 0.
Proof.
  apply DragEnd_moves_row; cbn; lia.
Defined.

(** X26: editing a field of row i (in range) keeps the number of rows,
    changes row i by that field only and leaves the other rows as they
    are. *)
Theorem UpdateField_local (items : list FeaturedItem) (i : nat) (k : FeaturedKey) (v : string)
  (Hi : i < length items) :
  let items' := apply_op items (UpdateField i k v) in
  length items' = length items
  /\ nth_error items' i = option_map (fun it => set_field it k v) (nth_error items i)
  /\ (forall j, j <> i -> nth_error items' j = nth_error items j).
Proof.
  cbn [apply_op]. unfold js_set. rewrite (proj2 (Nat.ltb_lt _ _) Hi).
  assert (Hsplit : items = app (firstn i items) (nth i items undefined_item :: skipn (S i) items)).
  { rewrite <- (firstn_skipn i items) at 1. f_equal. apply skipn_nth_cons. exact Hi. }
  assert (Hf : length (firstn i items) = i) by (rewrite length_firstn; lia).
  split; [|split].
  - rewrite length_app. cbn [length]. rewrite length_firstn, length_skipn. lia.
  - rewrite nth_error_app2 by lia. rewrite Hf, Nat.sub_diag. cbn [nth_error].
    rewrite (nth_error_nth' items undefined_item Hi). reflexivity.
  - intros j Hj. symmetry. rewrite Hsplit at 1.
    destruct (Nat.lt_ge_cases j i) as [Hlt|Hge].
    + rewrite !nth_error_app1 by lia. reflexivity.
    + rewrite !nth_error_app2 by lia. rewrite Hf.
      destruct (j - i) as [|m] eqn:Em; [lia|]. reflexivity.
Qed.

Lemma UpdateField_local_witness :
  let items' := apply_op sample_featured_items (UpdateField 1 KPrice "$2.99") in
  length items' = length sample_featured_items
  /\ nth_error items' 1 = option_map (fun it => set_field it KPrice "$2.99") (nth_error sample_featured_items 1)
  /\ (forall j, j <> 1 -> nth_error items' j = nth_error sample_featured_items j).
Proof.
  apply UpdateField_local. cbn. lia.
Defined.

(** X27: the image auto-mapping changes only the image of an item; it keeps
    an item whose image is empty or already a token; a new image is a
    non-empty token found for the file name, with or without its
    extension. *)
Theorem automap_item_only_image (nameToToken : string -> option string) (it : FeaturedItem) :
  let it' := automap_item nameToToken it in
  let src := js_trim (f_imageUrl it) in
  f_name it' = f_name it /\ f_size it' = f_size it /\ f_price it' = f_price it
  /\ (String.eqb src "" || String.prefix "asset://" src || String.prefix "media://" src = true -> it' = it)
  /\ (it' = it \/ (f_imageUrl it' <> "" /\
                   (nameToToken (stripPathAndLower src) = Some (f_imageUrl it')
                    \/ nameToToken (noExt (stripPathAndLower src)) = Some (f_imageUrl it')))).
Proof.
  intros it' src. unfold it', automap_item. fold src.
  destruct (String.eqb src "" || String.prefix "asset://" src || String.prefix "media://" src) eqn:Es.
  { repeat split; auto. }
  set (base := stripPathAndLower src).
  assert (Hgen : forall t, nameToToken base = Some t \/ nameToToken (noExt base) = Some t ->
     let r := if negb (String.eqb t "") && negb (String.eqb t (f_imageUrl it))
              then set_field it KImageUrl t else it in
     f_name r = f_name it /\ f_size r = f_size it /\ f_price r = f_price it
     /\ (false = true -> r = it)
     /\ (r = it \/ (f_imageUrl r <> "" /\ (nameToToken base = Some (f_imageUrl r)
                                           \/ nameToToken (noExt base) = Some (f_imageUrl r))))).
  { intros t Ht r. unfold r.
    destruct (negb (String.eqb t "") && negb (String.eqb t (f_imageUrl it))) eqn:Eb.
    - apply andb_prop in Eb as [E1 _]. apply negb_true_iff, String.eqb_neq in E1.
      cbn [set_field f_name f_size f_price f_imageUrl].
      repeat split; try discriminate. right. split; [exact E1|exact Ht].
    - repeat split; try discriminate. left. reflexivity. }
  destruct (nameToToken base) as [t|] eqn:E1.
  - destruct (String.eqb t "").
    + destruct (nameToToken (noExt base)) as [t'|] eqn:E2.
      * apply Hgen. right. reflexivity.
      * repeat split; try discriminate. left. reflexivity.
    + apply Hgen. left. reflexivity.
  - destruct (nameToToken (noExt base)) as [t'|] eqn:E2.
    + apply Hgen. right. reflexivity.
    + repeat split; try discriminate. left. reflexivity.
Qed.

Open Scope Q_scope.

(** Rounding to binary64 is exact on integers below [2^53], and
    [Math.floor(x / 100)] is exact below [2^44]. *)

Lemma rhe_bounds (r : Q) :
  r - (1 # 2) <= inject_Z (round_half_even r) <= r + (1 # 2).
Proof.
  unfold round_half_even. cbv zeta.
  destruct (proj1 (Qfloor__spec r (Qfloor_ r)) eq_refl) as [H1 H2].
  set (fl := Qfloor_ r) in *.
  destruct (Qcompare_spec (r - inject_Z fl) (1 # 2)) as [E|E|E];
    [destruct (Z.even fl)|..]; rewrite ?inject_Z_plus; change (inject_Z 1) with 1; split; lra.
Qed.

Lemma rhe_ge (k : Z) (r : Q) : inject_Z k <= r -> (k <= round_half_even r)%Z.
Proof.
  intros Hk. unfold round_half_even. cbv zeta.
  destruct (proj1 (Qfloor__spec r (Qfloor_ r)) eq_refl) as [H1 H2].
  set (fl := Qfloor_ r) in *.
  assert (Hl : (k < fl + 1)%Z).
  { rewrite Zlt_Qlt, inject_Z_plus. change (inject_Z 1) with 1. lra. }
  destruct (r - inject_Z fl ?= 1 # 2); [destruct (Z.even fl)|..]; lia.
Qed.

Lemma floor_log2_lt (p : Z) (q : positive) (B : Z) (HB : (0 <= B)%Z) (Hp : (0 < p)%Z)
  (H : (p < 2 ^ B * Zpos q)%Z) : (floor_log2 p q <= B - 1)%Z.
Proof.
  unfold floor_log2.
  destruct (Z.log2_spec p Hp) as [Hp1 Hp2].
  destruct (Z.log2_spec (Zpos q) eq_refl) as [Hq1 Hq2].
  assert (Hlp := Z.log2_nonneg p). assert (Hlq := Z.log2_nonneg (Zpos q)).
  assert (HB0 : (0 < 2 ^ B)%Z) by (apply Z.pow_pos_nonneg; lia).
  assert (He0 : (Z.log2 p - Z.log2 (Zpos q) <= B)%Z).
  { destruct (Z.le_gt_cases (Z.log2 p - Z.log2 (Zpos q)) B) as [|Hgt]; [assumption|exfalso].
    assert (Hle : (2 ^ (B + Z.log2 (Zpos q) + 1) <= 2 ^ Z.log2 p)%Z) by (apply Z.pow_le_mono_r; lia).
    rewrite !Z.pow_add_r, Z.pow_1_r in Hle by lia. rewrite Z.pow_succ_r in Hq2 by lia.
    revert Hle Hq2 H Hp1 HB0. generalize (2 ^ B)%Z (2 ^ Z.log2 (Zpos q))%Z (2 ^ Z.log2 p)%Z.
    intros a b c. nia. }
  destruct (Qle_bool (pow2Q (Z.log2 p - Z.log2 (Zpos q))) (p # q)) eqn:E; [|lia].
  apply Qle_bool_iff in E.
  destruct (Z.le_gt_cases B (Z.log2 p - Z.log2 (Zpos q))) as [Hge|]; [exfalso|lia].
  unfold pow2Q in E. rewrite (proj2 (Z.leb_le 0 _)) in E by lia.
  unfold Qle in E. cbn [Qnum Qden inject_Z] in E.
  assert (Hpw : (2 ^ B <= 2 ^ (Z.log2 p - Z.log2 (Zpos q)))%Z) by (apply Z.pow_le_mono_r; lia).
  revert E Hpw H HB0. generalize (2 ^ B)%Z (2 ^ (Z.log2 p - Z.log2 (Zpos q)))%Z. intros a b. nia.
Qed.

Lemma pow2Q_nonpos (sh : Z) (P : positive) (H : (sh <= 0)%Z) (HP : (2 ^ (- sh))%Z = Zpos P) :
  pow2Q sh == 1 # P.
Proof.
  unfold pow2Q. destruct (0 <=? sh)%Z eqn:E.
  - apply Z.leb_le in E. assert (sh = 0%Z) by lia. subst sh. cbn in HP. injection HP as <-.
    reflexivity.
  - rewrite HP. unfold Qdiv. cbn [inject_Z Qinv]. rewrite Qmult_1_l. reflexivity.
Qed.

Lemma rb64_small (x : Q) (B : Z) (HB : (0 <= B <= 53)%Z) (H0 : 0 < x) (H1 : x < inject_Z (2 ^ B)) :
  exists v m (P : positive), round_binary64 x = Finite v /\ v == m # P
  /\ (2 ^ (53 - B) <= Zpos P)%Z
  /\ x * inject_Z (Zpos P) - (1 # 2) <= inject_Z m <= x * inject_Z (Zpos P) + (1 # 2)
  /\ (forall k, inject_Z k <= x * inject_Z (Zpos P) -> (k <= m)%Z).
Proof.
  destruct x as [p q].
  assert (Hp : (0 < p)%Z) by (unfold Qlt in H0; cbn in H0; lia).
  assert (Hpq : (p < 2 ^ B * Zpos q)%Z) by (unfold Qlt in H1; cbn [Qnum Qden inject_Z] in H1; lia).
  unfold round_binary64.
  replace (Qeq_bool (p # q) 0) with false
    by (symmetry; apply Bool.not_true_iff_false; intros E; apply Qeq_bool_iff in E;
        unfold Qeq in E; cbn in E; lia).
  cbv zeta.
  replace (Qabs (p # q)) with (p # q) by (cbn; rewrite Z.abs_eq by lia; reflexivity).
  cbn [Qnum Qden].
  assert (He : (floor_log2 p q <= B - 1)%Z) by (apply floor_log2_lt; lia).
  set (sh := Z.max (floor_log2 p q - 52) (-1074)).
  assert (Hsh : (sh <= B - 53)%Z) by lia.
  assert (HK : (2 ^ (53 - B) <= 2 ^ (- sh))%Z) by (apply Z.pow_le_mono_r; lia).
  assert (HK0 : (0 < 2 ^ (- sh))%Z) by (apply Z.pow_pos_nonneg; lia).
  destruct (2 ^ (- sh))%Z as [|P|P] eqn:EP; try lia.
  pose proof (pow2Q_nonpos sh P ltac:(lia) EP) as Hpw.
  assert (Hr : (p # q) / pow2Q sh == (p # q) * inject_Z (Zpos P))
    by (unfold Qdiv; rewrite Hpw; reflexivity).
  destruct (rhe_bounds ((p # q) / pow2Q sh)) as [Hm1 Hm2].
  pose proof (fun k => rhe_ge k ((p # q) / pow2Q sh)) as Hge.
  set (m := round_half_even ((p # q) / pow2Q sh)) in *.
  rewrite Hr in Hm1, Hm2.
  assert (Hv : inject_Z m * pow2Q sh == m # P)
    by (rewrite Hpw; unfold Qeq; cbn; lia).
  assert (HmZ : (m <= 2 ^ B * Zpos P)%Z).
  { unfold Qle in Hm2. cbn [Qnum Qden Qmult Qplus inject_Z] in Hm2. rewrite ?Pos2Z.inj_mul in Hm2.
    assert (HB53 : (0 < 2 ^ B)%Z) by (apply Z.pow_pos_nonneg; lia).
    revert Hm2 Hpq HB53. generalize (2 ^ B)%Z. intros a. nia. }
  replace (Qle_bool (pow2Q 1024) (inject_Z m * pow2Q sh)) with false.
  2:{ symmetry. apply Bool.not_true_iff_false. intros E. apply Qle_bool_iff in E. rewrite Hv in E.
      change (pow2Q 1024) with (inject_Z (2 ^ 1024)) in E.
      unfold Qle in E. cbn [Qnum Qden inject_Z] in E.
      assert (HB2 : (2 ^ B <= 2 ^ 53)%Z) by (apply Z.pow_le_mono_r; lia).
      assert (H53 : (2 ^ 53 < 2 ^ 1024)%Z) by (apply Z.pow_lt_mono_r; lia).
      revert E HmZ HB2 H53. generalize (2 ^ B)%Z (2 ^ 53)%Z (2 ^ 1024)%Z. intros a b c. nia. }
  replace (Qltb (p # q) 0) with false
    by (unfold Qltb; rewrite (proj2 (Qle_bool_iff _ _)); [reflexivity|unfold Qle; cbn; lia]).
  exists (inject_Z m * pow2Q sh), m, P. split; [reflexivity|]. split; [exact Hv|].
  split; [exact HK|]. split; [split; assumption|].
  intros k Hk. apply Hge. rewrite Hr. exact Hk.
Qed.

Lemma rb64_int (n : Z) (H : (0 <= n < 2 ^ 53)%Z) :
  exists v, round_binary64 (inject_Z n) = Finite v /\ v == inject_Z n.
Proof.
  destruct (Z.eq_dec n 0) as [->|Hn]; [exists 0; split; reflexivity|].
  destruct (rb64_small (inject_Z n) 53 ltac:(lia) ltac:(unfold Qlt; cbn; lia)
              ltac:(rewrite <- Zlt_Qlt; lia)) as (v & m & P & Hr & Hv & _ & [Hm1 Hm2] & _).
  exists v. split; [exact Hr|]. rewrite Hv.
  unfold Qle in Hm1, Hm2. cbn [Qnum Qden Qmult Qplus Qminus Qopp inject_Z] in Hm1, Hm2.
  rewrite ?Pos2Z.inj_mul in Hm1, Hm2.
  unfold Qeq. cbn [Qnum Qden inject_Z]. nia.
Qed.

Lemma rb64_floor (x : Q) (q : Z) (Hq : (0 <= q)%Z) (H1 : inject_Z q <= x)
  (H2 : x <= inject_Z q + (99 # 100)) (H3 : x < inject_Z (2 ^ 44)) :
  exists v, round_binary64 x = Finite v /\ Qfloor_ v = q.
Proof.
  destruct (Qlt_le_dec 0 x) as [Hx|Hx].
  - destruct (rb64_small x 44 ltac:(lia) Hx H3) as (v & m & P & Hr & Hv & HP & [Hm1 Hm2] & Hge).
    exists v. split; [exact Hr|].
    assert (Hlo : (q * Zpos P <= m)%Z).
    { apply Hge. rewrite inject_Z_mult. apply Qmult_le_compat_r; [exact H1|].
      unfold Qle; cbn; lia. }
    assert (Hhi : inject_Z m <= (inject_Z q + (99 # 100)) * inject_Z (Zpos P) + (1 # 2)).
    { apply (Qle_trans _ _ _ Hm2). apply Qplus_le_compat; [|apply Qle_refl].
      apply Qmult_le_compat_r; [exact H2|unfold Qle; cbn; lia]. }
    unfold Qle in Hhi. cbn [Qnum Qden Qmult Qplus inject_Z] in Hhi. rewrite ?Pos2Z.inj_mul in Hhi.
    change (2 ^ (53 - 44))%Z with 512%Z in HP.
    rewrite Qfloor__Qfloor, (Qfloor_comp _ _ Hv), <- Qfloor__Qfloor.
    apply Qfloor__spec. unfold Qle, Qlt. cbn [Qnum Qden Qplus inject_Z]. rewrite ?Pos2Z.inj_mul.
    split; nia.
  - assert (Hq0 : q = 0%Z).
    { assert (Hz : inject_Z q <= inject_Z 0) by (change (inject_Z 0) with 0; lra).
      rewrite <- Zle_Qle in Hz. lia. }
    subst q. exists 0. split; [|reflexivity].
    unfold round_binary64. rewrite (proj2 (Qeq_bool_iff x 0)) by (change (inject_Z 0) with 0 in H1; lra).
    reflexivity.
Qed.

(** Decimal digit strings and their values. *)

Open Scope nat_scope.

Lemma digit_val_char (d : Z) : (0 <= d <= 9)%Z -> digit_val (digit_char d) = d.
Proof.
  intros H. unfold digit_val, digit_char. rewrite nat_ascii_embedding by lia.
  rewrite Nat.add_comm, Nat.add_sub. apply Z2Nat.id. lia.
Qed.

Lemma digits_value_app (acc : Z) (a b : list ascii) :
  digits_value acc (app a b) = digits_value (digits_value acc a) b.
Proof. revert acc. induction a as [|c a IH]; intros acc; [reflexivity|]. apply IH. Qed.

Lemma digits_value_nonneg (acc : Z) (l : list ascii) : (0 <= acc)%Z -> (acc <= digits_value acc l)%Z.
Proof.
  revert acc. induction l as [|c l IH]; intros acc H; cbn [digits_value]; [lia|].
  assert (Hc : (0 <= digit_val c)%Z) by (unfold digit_val; lia).
  specialize (IH (acc * 10 + digit_val c)%Z ltac:(lia)). lia.
Qed.

Lemma digits_rev_value (f : nat) (n : Z) :
  (0 <= n)%Z -> (n < 10 ^ Z.of_nat f)%Z -> digits_value 0 (rev (digits_rev f n)) = n.
Proof.
  revert n. induction f as [|f IH]; intros n H0 H1.
  - cbn in H1. cbn. lia.
  - rewrite Nat2Z.inj_succ, Z.pow_succ_r in H1 by lia.
    cbn [digits_rev]. destruct (n <? 10)%Z eqn:E.
    + apply Z.ltb_lt in E. cbn [rev app digits_value]. rewrite digit_val_char by lia. lia.
    + apply Z.ltb_ge in E. cbn [rev]. rewrite digits_value_app, IH.
      * cbn [digits_value]. rewrite digit_val_char by (pose proof (Z.mod_pos_bound n 10); lia).
        pose proof (Z.div_mod n 10). lia.
      * apply Z.div_pos; lia.
      * apply Z.div_lt_upper_bound; lia.
Qed.

Lemma digits_of_Z_value (n : Z) : (0 <= n)%Z -> digits_value 0 (digits_of_Z n) = n.
Proof.
  intros H. unfold digits_of_Z. apply digits_rev_value; [exact H|].
  rewrite Nat2Z.inj_succ, Z2Nat.id by apply Z.log2_nonneg.
  destruct (Z.eq_dec n 0) as [->|Hn]; [reflexivity|].
  destruct (Z.log2_spec n ltac:(lia)) as [_ H2].
  apply (Z.lt_le_trans _ _ _ H2). apply Z.pow_le_mono_l. split; [lia|lia].
Qed.

Lemma list_ascii_of_string_app (s1 s2 : string) :
  list_ascii_of_string (s1 ++ s2) = app (list_ascii_of_string s1) (list_ascii_of_string s2).
Proof. induction s1 as [|c s1 IH]; cbn; [reflexivity|]. rewrite IH. reflexivity. Qed.

Lemma filter_all {A} (f : A -> bool) (l : list A) : forallb f l = true -> filter f l = l.
Proof.
  induction l as [|a l IH]; intros H; [reflexivity|].
  cbn in H. apply andb_prop in H as [Ha Hl]. cbn. rewrite Ha, IH by exact Hl. reflexivity.
Qed.

Lemma padStart2_check :
  forallb (fun k => String.eqb (padStart2 (string_of_Z (Z.of_nat k)))
                     (string_of_list_ascii [digit_char (Z.of_nat k / 10); digit_char (Z.of_nat k mod 10)]))
          (seq 0 100) = true.
Proof. vm_compute. reflexivity. Qed.

Lemma padStart2_two_digits (r : Z) (H : (0 <= r < 100)%Z) :
  padStart2 (string_of_Z r) = string_of_list_ascii [digit_char (r / 10); digit_char (r mod 10)].
Proof.
  pose proof padStart2_check as C. rewrite forallb_forall in C.
  specialize (C (Z.to_nat r) ltac:(apply in_seq; lia)). rewrite Z2Nat.id in C by lia.
  apply String.eqb_eq. exact C.
Qed.

Open Scope Q_scope.

Lemma js_int_toString_eq (w : Q) (r : Z) (Hw : w == inject_Z r) (Hr : (0 <= r < 10 ^ 21)%Z) :
  js_int_toString (Finite w) = string_of_Z r.
Proof.
  assert (H0 : 0 <= w) by (rewrite Hw; unfold Qle; cbn; lia).
  unfold js_int_toString. cbv zeta.
  replace (Qltb w 0) with false by (unfold Qltb; rewrite (proj2 (Qle_bool_iff _ _) H0); reflexivity).
  assert (Ha : Qabs w == inject_Z r) by (rewrite Qabs_pos by exact H0; exact Hw).
  replace (Qle_bool (pow10Q 21) (Qabs w)) with false.
  2:{ symmetry. apply Bool.not_true_iff_false. intros E. apply Qle_bool_iff in E. rewrite Ha in E.
      change (pow10Q 21) with (inject_Z (10 ^ 21)) in E. rewrite <- Zle_Qle in E. lia. }
  rewrite Qfloor__Qfloor, (Qfloor_comp _ _ Ha), Qfloor_Z. reflexivity.
Qed.

(** The main computation: below [10^15] cents the arithmetic is exact. *)
Lemma maskCurrencyFromDigits_cents (input : string) (c : ascii) (t : list ascii)
  (Hd : filter is_digit (list_ascii_of_string input) = c :: t)
  (Hn : (digits_value 0 (c :: t) < 10 ^ 15)%Z) :
  maskCurrencyFromDigits input = currency_of_cents (digits_value 0 (c :: t)).
Proof.
  unfold maskCurrencyFromDigits. rewrite Hd. cbv zeta.
  set (n := digits_value 0 (c :: t)) in *.
  assert (Hn0 : (0 <= n)%Z) by (apply digits_value_nonneg; lia).
  unfold parseInt10_digits. fold n. clearbody n.
  pose proof (Z.div_mod n 100 ltac:(lia)). pose proof (Z.mod_pos_bound n 100 ltac:(lia)).
  destruct (rb64_int n ltac:(lia)) as [v [Hv Hvn]]. rewrite Hv.
  destruct (rb64_floor (v / 100) (n / 100)) as [w [Hw Hwf]].
  { apply Z.div_pos; lia. }
  { rewrite Hvn. unfold Qdiv. change (/ 100) with (1 # 100). unfold Qle. cbn. lia. }
  { rewrite Hvn. unfold Qdiv. change (/ 100) with (1 # 100). unfold Qle. cbn. lia. }
  { rewrite Hvn. unfold Qdiv. change (/ 100) with (1 # 100). unfold Qlt. cbn. lia. }
  unfold js_div100. rewrite Hw. unfold js_floor. rewrite Hwf.
  rewrite (js_int_toString_eq (inject_Z (n / 100)) (n / 100)) by (reflexivity || lia).
  unfold js_mod100.
  assert (Hv0 : 0 <= v) by (rewrite Hvn; unfold Qle; cbn; lia).
  replace (Qltb v 0) with false by (unfold Qltb; rewrite (proj2 (Qle_bool_iff _ _) Hv0); reflexivity).
  assert (Hq : Qfloor_ (v / 100) = (n / 100)%Z).
  { apply Qfloor__spec. rewrite Hvn. unfold Qdiv. change (/ 100) with (1 # 100).
    unfold Qle, Qlt. cbn. lia. }
  rewrite Hq.
  rewrite (js_int_toString_eq _ (n mod 100)).
  2:{ rewrite Hvn. unfold Qminus. change (100 : Q) with (inject_Z 100).
        rewrite <- inject_Z_mult, <- inject_Z_opp, <- inject_Z_plus, inject_Z_injective. lia. }
  2:{ lia. }
  rewrite padStart2_two_digits by lia.
  unfold currency_of_cents. do 3 f_equal.
  rewrite (Z.mod_mod_divide n 100 10) by (exists 10%Z; reflexivity). reflexivity.
Qed.

Open Scope nat_scope.

Lemma currency_of_cents_digits (n : Z) (H : (0 <= n)%Z) :
  filter is_digit (list_ascii_of_string (currency_of_cents n))
  = app (digits_of_Z (n / 100)) [digit_char (n mod 100 / 10); digit_char (n mod 10)]
  /\ digits_value 0 (app (digits_of_Z (n / 100)) [digit_char (n mod 100 / 10); digit_char (n mod 10)]) = n.
Proof.
  pose proof (Z.mod_pos_bound n 10 ltac:(lia)). pose proof (Z.mod_pos_bound n 100 ltac:(lia)).
  pose proof (Z.div_mod n 100 ltac:(lia)).
  assert (Hd1 : (n mod 100 / 10 < 10)%Z) by (apply Z.div_lt_upper_bound; lia).
  assert (Hd0 : (0 <= n mod 100 / 10)%Z) by (apply Z.div_pos; lia).
  split.
  - unfold currency_of_cents, string_of_Z.
    rewrite !list_ascii_of_string_app, !list_ascii_of_string_of_list_ascii.
    rewrite !filter_app. rewrite (filter_all _ (digits_of_Z (n / 100))) by apply digits_of_Z_all_digits.
    cbn [list_ascii_of_string filter].
    replace (is_digit "$") with false by reflexivity. replace (is_digit ".") with false by reflexivity.
    rewrite !digit_char_is_digit by lia. reflexivity.
  - rewrite digits_value_app, digits_of_Z_value by (apply Z.div_pos; lia).
    cbn [digits_value]. rewrite !digit_val_char by lia.
    pose proof (Z.div_mod (n mod 100) 10 ltac:(lia)).
    rewrite (Z.mod_mod_divide n 100 10) in * by (exists 10%Z; reflexivity). lia.
Qed.

(** X28: below [10^15] cents, [maskCurrencyFromDigits] keeps the decimal
    digits of its input in order and writes their value [n] as dollars and
    cents: [$] then [n / 100], a dot and the two digits of [n mod 100]; an
    input without digits gives the empty string. *)
Theorem maskCurrencyFromDigits_spec (input : string)
  (Hn : (digits_value 0 (filter is_digit (list_ascii_of_string input)) < 10 ^ 15)%Z) :
  maskCurrencyFromDigits input
  = match filter is_digit (list_ascii_of_string input) with
    | [] => ""
    | ds => currency_of_cents (digits_value 0 ds)
    end.
Proof.
  destruct (filter is_digit (list_ascii_of_string input)) as [|c t] eqn:Ed.
  - unfold maskCurrencyFromDigits. rewrite Ed. reflexivity.
  - apply maskCurrencyFromDigits_cents; assumption.
Qed.

Lemma maskCurrencyFromDigits_spec_witness :
  (digits_value 0 (filter is_digit (list_ascii_of_string "Milk 1,234.5")) < 10 ^ 15)%Z
  /\ maskCurrencyFromDigits "Milk 1,234.5" = "$123.45".
Proof.
  split; [vm_compute; reflexivity|].
  rewrite (maskCurrencyFromDigits_spec "Milk 1,234.5") by (vm_compute; reflexivity).
  vm_compute. reflexivity.
Defined.

(** X29: below [10^15] cents, masking an already masked price changes
    nothing: the digits of [$d.cc] have the value the first mask read. *)
Theorem maskCurrencyFromDigits_idempotent (input : string)
  (Hn : (digits_value 0 (filter is_digit (list_ascii_of_string input)) < 10 ^ 15)%Z) :
  maskCurrencyFromDigits (maskCurrencyFromDigits input) = maskCurrencyFromDigits input.
Proof.
  destruct (filter is_digit (list_ascii_of_string input)) as [|c t] eqn:Ed.
  - assert (E : maskCurrencyFromDigits input = "") by (unfold maskCurrencyFromDigits; rewrite Ed; reflexivity).
    rewrite E. reflexivity.
  - rewrite (maskCurrencyFromDigits_cents input c t Ed Hn).
    set (n := digits_value 0 (c :: t)) in *.
    assert (Hn0 : (0 <= n)%Z) by (apply digits_value_nonneg; lia).
    destruct (currency_of_cents_digits n Hn0) as [H1 H2].
    destruct (app (digits_of_Z (n / 100)) [digit_char (n mod 100 / 10); digit_char (n mod 10)])
      as [|c' t'] eqn:E'.
    + destruct (digits_of_Z (n / 100)); discriminate.
    + rewrite (maskCurrencyFromDigits_cents (currency_of_cents n) c' t' H1) by lia.
      rewrite H2. reflexivity.
Qed.

Lemma maskCurrencyFromDigits_idempotent_witness :
  (digits_value 0 (filter is_digit (list_ascii_of_string "2.4")) < 10 ^ 15)%Z
  /\ maskCurrencyFromDigits (maskCurrencyFromDigits "2.4") = maskCurrencyFromDigits "2.4".
Proof.
  split; [vm_compute; reflexivity|].
  apply maskCurrencyFromDigits_idempotent. vm_compute. reflexivity.
Defined.

(** X30: typing a digit [d] after a masked price (below [10^15] cents
    afterwards) shifts the cents left by one place: the new price is the
    old number of cents times ten plus [d]. *)
Theorem maskCurrencyFromDigits_type_digit (input : string) (d : ascii) (Hd : is_digit d = true)
  (Hn : (10 * digits_value 0 (filter is_digit (list_ascii_of_string input)) + digit_val d < 10 ^ 15)%Z) :
  maskCurrencyFromDigits (maskCurrencyFromDigits input ++ String d EmptyString)
  = currency_of_cents (10 * digits_value 0 (filter is_digit (list_ascii_of_string input)) + digit_val d).
Proof.
  set (n := digits_value 0 (filter is_digit (list_ascii_of_string input))) in *.
  assert (Hn0 : (0 <= n)%Z) by (apply digits_value_nonneg; lia).
  assert (Hdv : (0 <= digit_val d)%Z) by (unfold digit_val; lia).
  assert (Happ : forall s, filter is_digit (list_ascii_of_string (s ++ String d EmptyString))
                           = app (filter is_digit (list_ascii_of_string s)) [d]).
  { intros s. rewrite list_ascii_of_string_app, filter_app. cbn [list_ascii_of_string filter].
    rewrite Hd. reflexivity. }
  assert (Hval : forall l, digits_value 0 (app l [d]) = (10 * digits_value 0 l + digit_val d)%Z).
  { intros l. rewrite digits_value_app. cbn [digits_value]. lia. }
  destruct (filter is_digit (list_ascii_of_string input)) as [|c t] eqn:Ed.
  - assert (E : maskCurrencyFromDigits input = "") by (unfold maskCurrencyFromDigits; rewrite Ed; reflexivity).
    rewrite E.
    destruct (app (filter is_digit (list_ascii_of_string "")) [d]) as [|c' t'] eqn:E'.
    + discriminate.
    + rewrite (maskCurrencyFromDigits_cents _ c' t').
      * rewrite <- E', Hval. reflexivity.
      * rewrite Happ. exact E'.
      * rewrite <- E', Hval. cbn [list_ascii_of_string filter digits_value]. lia.
  - rewrite (maskCurrencyFromDigits_cents input c t Ed) by (unfold n in Hn; lia).
    change (digits_value 0 (c :: t)) with n. clearbody n.
    destruct (currency_of_cents_digits n Hn0) as [H1 H2].
    destruct (app (app (digits_of_Z (n / 100)) [digit_char (n mod 100 / 10); digit_char (n mod 10)]) [d])
      as [|c' t'] eqn:E'.
    + destruct (digits_of_Z (n / 100)); discriminate.
    + rewrite (maskCurrencyFromDigits_cents _ c' t').
      * rewrite <- E', Hval, H2. reflexivity.
      * rewrite Happ, H1. exact E'.
      * rewrite <- E', Hval, H2. exact Hn.
Qed.

Lemma maskCurrencyFromDigits_type_digit_witness :
  is_digit "5"%char = true
  /\ (10 * digits_value 0 (filter is_digit (list_ascii_of_string "$1.99")) + digit_val "5"%char < 10 ^ 15)%Z
  /\ maskCurrencyFromDigits (maskCurrencyFromDigits "$1.99" ++ String "5"%char EmptyString) = "$19.95".
Proof.
  split; [reflexivity|]. split; [vm_compute; reflexivity|].
  rewrite (maskCurrencyFromDigits_type_digit "$1.99" "5"%char) by (vm_compute; reflexivity).
  vm_compute. reflexivity.
Defined.

Open Scope Q_scope.
